(** * Lecture Audio Cleaner: the task descriptor, the processing pipeline,
      the processing thread and the task registry, embedded from
      [src/audio/task.py], [src/audio/processor.py] and
      [src/gui/main_window.py]. *)

From Stdlib Require Import ZArith List String Ascii QArith Sorted Lia.
From stdpp Require Import base gmap strings list.
Import ListNotations.

Open Scope string_scope.
Open Scope list_scope.
Open Scope Z_scope.

(* ===================================================================== *)
(** * Part I: definitions                                                 *)
(* ===================================================================== *)

(** ** Python [str] helpers *)

Module PyStr.

(** [s.split(sep)] for a one-character separator: never the empty list. *)
Fixpoint split (sep : ascii) (s : string) : list string :=
  match s with
  | EmptyString => [EmptyString]
  | String c s' =>
      if Ascii.eqb c sep then EmptyString :: split sep s'
      else match split sep s' with
           | x :: xs => String c x :: xs
           | [] => [String c EmptyString]
           end
  end.

(** [sep.join(parts)]. *)
Fixpoint join (sep : ascii) (parts : list string) : string :=
  match parts with
  | [] => EmptyString
  | x :: xs =>
      match xs with
      | [] => x
      | _ :: _ => x +:+ String sep (join sep xs)
      end
  end.

(** [s.lstrip(c)]. *)
Fixpoint lstrip (c : ascii) (s : string) : string :=
  match s with
  | EmptyString => EmptyString
  | String a s' => if Ascii.eqb a c then lstrip c s' else s
  end.

(** [s.rfind(c)]: the highest index of [c] in [s], [-1] when absent.
    [pos] is the index of the first character of [s]. *)
Fixpoint rfind_from (c : ascii) (s : string) (pos : Z) : Z :=
  match s with
  | EmptyString => -1
  | String a s' =>
      let r := rfind_from c s' (pos + 1) in
      if 0 <=? r then r else if Ascii.eqb a c then pos else -1
  end.

Definition rfind (c : ascii) (s : string) : Z := rfind_from c s 0.

(** [s[:n]] and [s[n:]] for [0 <= n]. *)
Fixpoint take (n : nat) (s : string) : string :=
  match n, s with
  | S n', String a s' => String a (take n' s')
  | _, _ => EmptyString
  end.

Fixpoint drop (n : nat) (s : string) : string :=
  match n, s with
  | S n', String _ s' => drop n' s'
  | _, _ => s
  end.

Definition len (s : string) : Z := Z.of_nat (String.length s).

(** [c in s]. *)
Fixpoint contains (c : ascii) (s : string) : bool :=
  match s with
  | EmptyString => false
  | String a s' => Ascii.eqb a c || contains c s'
  end.

(** [s.lower()] on ASCII text: the letters A..Z are mapped to a..z, every
    other character is kept. *)
Definition lower_char (a : ascii) : ascii :=
  let n := nat_of_ascii a in
  if (Nat.leb 65 n && Nat.leb n 90)%bool then ascii_of_nat (n + 32) else a.

Fixpoint lower (s : string) : string :=
  match s with
  | EmptyString => EmptyString
  | String a s' => String (lower_char a) (lower s')
  end.

(** [s.endswith(c)] for a character [c]. *)
Fixpoint endswith (c : ascii) (s : string) : bool :=
  match s with
  | EmptyString => false
  | String a s' =>
      match s' with
      | EmptyString => Ascii.eqb a c
      | String _ _ => endswith c s'
      end
  end.

End PyStr.

(** ** [pathlib] (POSIX flavour), as far as [AudioTask] uses it

    A path is kept as pathlib keeps it once parsed: the root (["" ], ["/"] or
    ["//"]) and the list of the remaining components.  The definitions follow
    [pathlib.py] of the Python versions the package declares (3.8 to 3.10);
    POSIX paths have no drive. *)

Module Pathlib.

Definition sep : ascii := "/"%char.
Definition dot : ascii := "."%char.

Record PurePath := mkPath { root : string; tail : list string }.

(** [_PosixFlavour.splitroot]: exactly two leading slashes are kept as the
    root ["//"], any other number of them is the root ["/"]. *)
Definition splitroot (part : string) : string * string :=
  match part with
  | String c _ =>
      if Ascii.eqb c sep then
        let stripped_part := PyStr.lstrip sep part in
        if PyStr.len part - PyStr.len stripped_part =? 2
        then ("//", stripped_part)
        else ("/", stripped_part)
      else ("", part)
  | EmptyString => ("", part)
  end.

Definition keep_component (x : string) : bool :=
  negb (String.eqb x "") && negb (String.eqb x ".").

(** [Path(s)]: [parse_parts] on the single argument [s].  Empty components
    and ["."] components are dropped. *)
Definition Path (s : string) : PurePath :=
  if String.eqb s "" then mkPath "" []
  else
    let '(rt, rel) := splitroot s in
    mkPath rt (List.filter keep_component (PyStr.split sep rel)).

(** [str(p)]. *)
Definition str (p : PurePath) : string :=
  let s := root p +:+ PyStr.join sep (tail p) in
  if String.eqb s "" then "." else s.

(** [p.name]: the final component, [""] when there is none. *)
Definition name (p : PurePath) : string := List.last (tail p) "".

(** [p.suffix]: from the last dot of the name on, unless that dot is the
    first or the last character of the name. *)
Definition suffix (p : PurePath) : string :=
  let nm := name p in
  let i := PyStr.rfind dot nm in
  if (0 <? i) && (i <? PyStr.len nm - 1) then PyStr.drop (Z.to_nat i) nm
  else "".

(** [p.stem]. *)
Definition stem (p : PurePath) : string :=
  let nm := name p in
  let i := PyStr.rfind dot nm in
  if (0 <? i) && (i <? PyStr.len nm - 1) then PyStr.take (Z.to_nat i) nm
  else nm.

(** [p.parent]: the path without its final component; a path without
    components is its own parent. *)
Definition parent (p : PurePath) : PurePath :=
  mkPath (root p) (List.removelast (tail p)).

(** [p / key]: [key] is parsed on its own and [join_parsed_parts] appends
    its components, unless [key] is rooted, in which case it replaces [p]. *)
Definition joinpath (p : PurePath) (key : string) : PurePath :=
  let q := Path key in
  if String.eqb (root q) "" then mkPath (root p) (tail p ++ tail q)
  else q.

(** A component that parsing keeps: not empty, not ["."], without a
    separator. *)
Definition good_component (x : string) : Prop :=
  keep_component x = true /\ PyStr.contains sep x = false.

(** What [Path] produces: one of the three roots and kept components. *)
Definition wf (p : PurePath) : Prop :=
  (root p = "" \/ root p = "/" \/ root p = "//") /\ Forall good_component (tail p).

End Pathlib.

(** ** [src/audio/task.py] *)

Inductive NoiseReductionLevel := LIGHT | MEDIUM | STRONG.

Inductive SpeechEnhancementLevel := SE_LIGHT | SE_MEDIUM | SE_STRONG.

Inductive BackgroundNoiseLevel := MINIMAL | MODERATE | AGGRESSIVE.

Record AudioTask := mkAudioTask {
  input_path : string;
  name : string;
  noise_reduction_level : NoiseReductionLevel;
  enable_speech_enhancement : bool;
  speech_enhancement_level : SpeechEnhancementLevel;
  voice_clarity_boost : bool;
  background_noise_level : BackgroundNoiseLevel
}.

(** The generated [__init__] followed by [__post_init__]: an empty name is
    replaced by the stem of the input path. *)
Definition AudioTask_init (input_path name : string)
    (noise_reduction_level : NoiseReductionLevel)
    (enable_speech_enhancement : bool)
    (speech_enhancement_level : SpeechEnhancementLevel)
    (voice_clarity_boost : bool)
    (background_noise_level : BackgroundNoiseLevel) : AudioTask :=
  mkAudioTask input_path
    (if String.eqb name "" then Pathlib.stem (Pathlib.Path input_path) else name)
    noise_reduction_level enable_speech_enhancement speech_enhancement_level
    voice_clarity_boost background_noise_level.

(** The task with its [enable_speech_enhancement] field set. *)
Definition set_enable_speech_enhancement (t : AudioTask) (b : bool) : AudioTask :=
  mkAudioTask (input_path t) (name t) (noise_reduction_level t) b
    (speech_enhancement_level t) (voice_clarity_boost t)
    (background_noise_level t).


(** The name that [output_path] gives to the output file. *)
Definition cleaned_name (p : Pathlib.PurePath) : string :=
  Pathlib.stem p +:+ "_cleaned" +:+ Pathlib.suffix p.

(** [AudioTask.output_path]. *)
Definition output_path (t : AudioTask) : string :=
  let input_path := Pathlib.Path (input_path t) in
  Pathlib.str (Pathlib.joinpath (Pathlib.parent input_path) (cleaned_name input_path)).

(** The [format_map] dictionary of [AudioTask.output_format]. *)
Definition format_map : gmap string string :=
  list_to_map
    [ (".wav", "wav"); (".mp3", "mp3"); (".m4a", "m4a");
      (".aac", "aac"); (".ogg", "ogg"); (".flac", "flac") ].

(** [AudioTask.output_format]. *)
Definition output_format (t : AudioTask) : string :=
  let input_path := Pathlib.Path (input_path t) in
  let ext := PyStr.lower (Pathlib.suffix input_path) in
  match format_map !! ext with
  | Some fmt => fmt
  | None => "wav"
  end.

Definition default_task (input : string) : AudioTask :=
  AudioTask_init input "" MEDIUM true SE_MEDIUM true MODERATE.


(** ** The world the pipeline runs in

    The pipeline is effectful: it calls the audio libraries, which read and
    write files and may raise, it invokes the progress callback, and it runs
    on a worker thread while the GUI thread may call
    [ProcessingThread.stop].  A computation is a function from the world to a
    result (a value or a raised exception) and the next world. *)

(** An instance of Python's [Exception], with its message. *)
Inductive exn := Exception (msg : string).

Definition exn_str (e : exn) : string := match e with Exception msg => msg end.

Inductive result (A : Type) :=
  | Ok (a : A)
  | Raise (e : exn).
Arguments Ok {A} a.
Arguments Raise {A} e.

Definition bytes := list Byte.byte.

(** The files the libraries see: path to content. *)
Definition filesystem := gmap string bytes.

(** The signals of [ProcessingThread]. *)
Inductive qt_signal :=
  | progress_updated (task_name : string) (progress : Z)
  | task_completed (task_name : string) (success : bool) (message : string).

Section World.
Context {sample : Type}.

(** A mono sample buffer, as [librosa.load] returns it. *)
Definition signal := list sample.

(** The arguments [_apply_noise_reduction] passes to [nr.reduce_noise]. *)
Record ReduceNoiseArgs := mkReduceNoiseArgs {
  nr_y : signal;
  nr_sr : Z;
  nr_y_noise : signal;
  nr_prop_decrease : Q;
  nr_stationary : bool;
  nr_n_std_thresh_stationary : Q
}.

(** The library calls of [processor.py]. *)
Inductive call :=
  | librosa_load (path : string)
  | nr_reduce_noise (args : ReduceNoiseArgs)
  | sf_write (file : string) (data : signal) (samplerate : Z)
  | sf_write_buffer (data : signal) (samplerate : Z) (format : string)
  | AudioSegment_from_wav (wav_buffer : bytes)
  | AudioSegment_export (audio_segment : bytes) (out_f : string) (format : string).

Inductive outcome := Returned | Raised (e : exn).

(** What an observer of a run sees, in order. *)
Inductive event :=
  | Progress (value : Z)          (* a recording callback was handed [value] *)
  | Called (c : call) (o : outcome)
  | Emitted (s : qt_signal)
  | StopRequested                 (* the GUI thread ran [ProcessingThread.stop] *)
  | Polled (is_running : bool).   (* [run] read [self.is_running] *)

(** The behaviour of the libraries: any functions of these types. *)
Record Libs := mkLibs {
  lib_load : string -> filesystem -> result (signal * Z);
  lib_reduce_noise : ReduceNoiseArgs -> result signal;
  lib_write : string -> signal -> Z -> filesystem -> result unit * filesystem;
  lib_write_buffer : signal -> Z -> string -> result bytes;
  lib_from_wav : bytes -> result bytes;
  lib_export : bytes -> string -> string -> filesystem -> result unit * filesystem
}.

Record World := mkWorld {
  fs : filesystem;
  log : list event;
  thread_is_running : bool;        (* [ProcessingThread.is_running] *)
  pending_stop : option nat        (* scheduling points left before the GUI
                                      thread runs [stop]; [None]: no request *)
}.

Definition M (A : Type) : Type := World -> result A * World.

Definition ret {A} (a : A) : M A := fun w => (Ok a, w).

Definition bind {A B} (m : M A) (k : A -> M B) : M B :=
  fun w => match m w with
           | (Ok a, w') => k a w'
           | (Raise e, w') => (Raise e, w')
           end.

Definition raise {A} (e : exn) : M A := fun w => (Raise e, w).

(** [try: m  except Exception as e: h e]. *)
Definition try_except {A} (m : M A) (h : exn -> M A) : M A :=
  fun w => match m w with
           | (Ok a, w') => (Ok a, w')
           | (Raise e, w') => h e w'
           end.

(** [try: m  finally: f]. *)
Definition try_finally {A} (m : M A) (f : M unit) : M A :=
  fun w => match m w with
           | (r, w') =>
               match f w' with
               | (Ok _, w'') => (r, w'')
               | (Raise e, w'') => (Raise e, w'')
               end
           end.

Definition add_event (ev : event) (w : World) : World :=
  mkWorld (fs w) (log w ++ [ev]) (thread_is_running w) (pending_stop w).

(** [ProcessingThread.stop], run by the GUI thread. *)
Definition stop (w : World) : World :=
  mkWorld (fs w) (log w) false (pending_stop w).

(** A scheduling point of the worker thread: the GUI thread may run here.
    Its pending [stop] request, if any, is counted down and executed when
    due. *)
Definition yield : M unit :=
  fun w => match pending_stop w with
           | None => (Ok tt, w)
           | Some (S k) =>
               (Ok tt, mkWorld (fs w) (log w) (thread_is_running w) (Some k))
           | Some O =>
               let w1 := stop w in
               (Ok tt, mkWorld (fs w1) (log w1 ++ [StopRequested])
                               (thread_is_running w1) None)
           end.

End World.

Arguments signal : clear implicits.
Arguments ReduceNoiseArgs : clear implicits.
Arguments call : clear implicits.
Arguments event : clear implicits.
Arguments Libs : clear implicits.
Arguments World : clear implicits.
Arguments M : clear implicits.

Declare Scope py_scope.
Delimit Scope py_scope with py.
Notation "x <- m ;; k" := (bind m (fun x => k))
  (at level 100, m at next level, right associativity) : py_scope.
Notation "m ;; k" := (bind m (fun _ => k))
  (at level 100, right associativity) : py_scope.

(** ** [src/audio/processor.py] *)

Section Processor.
Context {sample : Type}.
Variable lib : Libs sample.

Local Open Scope py_scope.

Local Abbreviation signal := (signal sample).
Local Abbreviation World := (World sample).
Local Abbreviation M := (M sample).

(** One library call: a scheduling point, then the call with its effect on
    the files, recorded with its outcome. *)
Definition record_call {A} (c : call sample) (r : result A) (w : World) : World :=
  add_event (Called c match r with Ok _ => Returned | Raise e => Raised e end) w.

Definition invoke {A} (c : call sample) (f : filesystem -> result A * filesystem) : M A :=
  yield ;;
  (fun w => let '(r, fs') := f (fs w) in
            (r, record_call c r (mkWorld fs' (log w) (thread_is_running w) (pending_stop w)))).

Definition pure_call {A} (r : result A) : filesystem -> result A * filesystem :=
  fun fs0 => (r, fs0).

(** [librosa.load(path, sr=None)]. *)
Definition load (path : string) : M (signal * Z) :=
  invoke (librosa_load path) (fun fs0 => (lib_load lib path fs0, fs0)).

(** [nr.reduce_noise(y=.., sr=.., y_noise=.., prop_decrease=..,
    stationary=.., n_std_thresh_stationary=..)]. *)
Definition reduce_noise (args : ReduceNoiseArgs sample) : M signal :=
  invoke (nr_reduce_noise args) (pure_call (lib_reduce_noise lib args)).

(** [sf.write(file, data, samplerate)] on a path. *)
Definition write (file : string) (data : signal) (samplerate : Z) : M unit :=
  invoke (sf_write file data samplerate) (lib_write lib file data samplerate).

(** [sf.write(wav_buffer, data, samplerate, format=..)] on a fresh
    [io.BytesIO], followed by [wav_buffer.seek(0)]: the buffer content. *)
Definition write_buffer (data : signal) (samplerate : Z) (format : string) : M bytes :=
  invoke (sf_write_buffer data samplerate format)
         (pure_call (lib_write_buffer lib data samplerate format)).

(** [AudioSegment.from_wav(wav_buffer)]. *)
Definition from_wav (wav_buffer : bytes) : M bytes :=
  invoke (AudioSegment_from_wav wav_buffer) (pure_call (lib_from_wav lib wav_buffer)).

(** [audio_segment.export(out_f, format=..)]. *)
Definition export (audio_segment : bytes) (out_f format : string) : M unit :=
  invoke (AudioSegment_export audio_segment out_f format)
         (lib_export lib audio_segment out_f format).

(** To make an event visible: a scheduling point, then the event. *)
Definition emit (ev : event sample) : M unit :=
  yield ;; (fun w => (Ok tt, add_event ev w)).

(** [if progress_callback: progress_callback(value)]. *)
Definition report (progress_callback : option (Z -> M unit)) (value : Z) : M unit :=
  match progress_callback with
  | Some f => f value
  | None => ret tt
  end.

(** The handlers of the stages: log the error, then [raise]. *)
Definition log_and_reraise {A} (e : exn) : M A := raise e.

(** The [reduction_strength] dictionary of [_apply_noise_reduction]. *)
Definition reduction_strength (level : NoiseReductionLevel) : Q :=
  match level with
  | LIGHT => 0.5
  | MEDIUM => 0.7
  | STRONG => 0.9
  end%Q.

(** The slice [y[:stop]]: a negative [stop] counts from the end, and a
    [stop] beyond the end is clipped to the length. *)
Definition slice_to {A} (y : list A) (stop : Z) : list A :=
  if stop <? 0 then List.firstn (Z.to_nat (Z.of_nat (List.length y) + stop)) y
  else List.firstn (Z.to_nat stop) y.

(** [AudioProcessor._apply_noise_reduction]. *)
Definition _apply_noise_reduction (y : signal) (sr : Z) (level : NoiseReductionLevel)
    : M signal :=
  try_except
    (let reduction_strength := reduction_strength level in
     let noise_clip := slice_to y sr in
     reduce_noise
       (mkReduceNoiseArgs y sr noise_clip reduction_strength true 1.5%Q))
    log_and_reraise.

(** [AudioProcessor._enhance_speech]. *)
Definition _enhance_speech (y : signal) (sr : Z) : M signal :=
  try_except (ret y) log_and_reraise.

(** The save stage of [process_audio]. *)
Definition save (task : AudioTask) (y_clean : signal) (sr : Z) : M unit :=
  try_except
    (if String.eqb (PyStr.lower (output_format task)) "mp3" then
       wav_buffer <- write_buffer y_clean sr "WAV" ;;
       audio_segment <- from_wav wav_buffer ;;
       export audio_segment (output_path task) "mp3"
     else
       write (output_path task) y_clean sr)
    log_and_reraise.

(** [AudioProcessor.process_audio]. *)
Definition process_audio (task : AudioTask)
    (progress_callback : option (Z -> M unit)) : M bool :=
  try_except
    (report progress_callback 10 ;;
     loaded <- try_except (load (input_path task)) log_and_reraise ;;
     let '(y, sr) := loaded in
     report progress_callback 30 ;;
     y_clean <- try_except
                  (_apply_noise_reduction y sr (noise_reduction_level task))
                  log_and_reraise ;;
     y_clean <- (if enable_speech_enhancement task then
                   report progress_callback 60 ;;
                   try_except (_enhance_speech y_clean sr) log_and_reraise
                 else ret y_clean) ;;
     report progress_callback 80 ;;
     save task y_clean sr ;;
     report progress_callback 100 ;;
     ret true)
    (fun _ => ret false).

(** A callback that records the values it is handed, as the callback of
    the test suite does. *)
Definition recording_callback : Z -> M unit := fun value => emit (Progress value).

(** ** [ProcessingThread] of [src/gui/main_window.py] *)

Definition set_is_running (b : bool) : M unit :=
  fun w => (Ok tt, mkWorld (fs w) (log w) b (pending_stop w)).

(** Reading [self.is_running]: a scheduling point, then the read. *)
Definition poll_is_running : M bool :=
  yield ;;
  (fun w => (Ok (thread_is_running w), add_event (Polled (thread_is_running w)) w)).

(** [ProcessingThread.run]. *)
Definition run (task : AudioTask) : M unit :=
  set_is_running true ;;
  try_finally
    (try_except
       (success <- process_audio task
                     (Some (fun p => emit (Emitted (progress_updated (name task) p)))) ;;
        is_running <- poll_is_running ;;
        if negb is_running then
          emit (Emitted (task_completed (name task) false "Task cancelled"))
        else if (success : bool) then
          emit (Emitted (task_completed (name task) true
                           "Processing completed successfully"))
        else
          emit (Emitted (task_completed (name task) false "Processing failed")))
       (fun e =>
          emit (Emitted (task_completed (name task) false ("Error: " +:+ exn_str e)))))
    (set_is_running false).

End Processor.

(** ** Observing a run *)

Section Observations.
Context {sample : Type}.

Definition is_stop_request (ev : event sample) : bool :=
  match ev with StopRequested => true | _ => false end.

(** The events of the worker thread itself. *)
Definition visible (l : list (event sample)) : list (event sample) :=
  List.filter (fun ev => negb (is_stop_request ev)) l.

(** The values a recording callback was handed, in order. *)
Fixpoint progress_values (l : list (event sample)) : list Z :=
  match l with
  | [] => []
  | Progress value :: l' => value :: progress_values l'
  | _ :: l' => progress_values l'
  end.

(** The library calls, in order. *)
Fixpoint calls (l : list (event sample)) : list (call sample) :=
  match l with
  | [] => []
  | Called c _ :: l' => c :: calls l'
  | _ :: l' => calls l'
  end.

(** The signals emitted, in order. *)
Fixpoint signals (l : list (event sample)) : list qt_signal :=
  match l with
  | [] => []
  | Emitted s :: l' => s :: signals l'
  | _ :: l' => signals l'
  end.

Definition is_polled (ev : event sample) : bool :=
  match ev with Polled _ => true | _ => false end.

Definition is_called (ev : event sample) : bool :=
  match ev with Called _ _ => true | _ => false end.

(** The same world, with no [stop] request pending. *)
Definition quiet (w : World sample) : World sample :=
  mkWorld (fs w) (log w) (thread_is_running w) None.

(** A world in which the GUI thread runs [stop] at the scheduling point
    number [k] (from 0) of the worker. *)
Definition stop_at (k : nat) (w : World sample) : World sample :=
  mkWorld (fs w) (log w) (thread_is_running w) (Some k).

End Observations.

(** ** [MainWindow] of [src/gui/main_window.py]: the task registry *)

(** The widget of a task, as far as the registry is concerned. *)
Record TaskItem := mkTaskItem { item_label : string; item_is_running : bool }.

Definition TaskItem_init (task_name : string) : TaskItem :=
  mkTaskItem task_name false.

(** What [TaskDialog.get_configuration] returns. *)
Record Configuration := mkConfiguration {
  cfg_input_path : string;
  cfg_noise_reduction_level : NoiseReductionLevel;
  cfg_enable_speech_enhancement : bool;
  cfg_speech_enhancement_level : SpeechEnhancementLevel;
  cfg_voice_clarity_boost : bool;
  cfg_background_noise_level : BackgroundNoiseLevel
}.

(** What [dialog.exec_()] returns. *)
Inductive DialogCode := Rejected | Accepted.

Record MainWindow := mkMainWindow {
  tasks : gmap string (AudioTask * TaskItem);
  processing_threads : gmap string AudioTask;  (* a thread, by the task it runs *)
  task_layout : list TaskItem                  (* the items, above the stretch *)
}.

(** [MainWindow.add_task], given what the dialog returned. *)
Definition add_task (exec_ : DialogCode) (config : Configuration)
    (self : MainWindow) : MainWindow :=
  match exec_ with
  | Accepted =>
      if negb (String.eqb (cfg_input_path config) "") then
        let task :=
          AudioTask_init (cfg_input_path config) ""
            (cfg_noise_reduction_level config)
            (cfg_enable_speech_enhancement config)
            (cfg_speech_enhancement_level config)
            (cfg_voice_clarity_boost config)
            (cfg_background_noise_level config) in
        let task_item := TaskItem_init (name task) in
        mkMainWindow (<[name task := (task, task_item)]> (tasks self))
                     (processing_threads self)
                     (task_layout self ++ [task_item])
      else self
  | Rejected => self
  end.

(** A task is running when a thread is registered under its name (the test
    of [start_task]); otherwise it is idle. *)
Definition is_idle (self : MainWindow) (task_name : string) : Prop :=
  processing_threads self !! task_name = None.

(** Threads are only registered for registered tasks. *)
Definition registry_invariant (self : MainWindow) : Prop :=
  forall task_name, tasks self !! task_name = None -> is_idle self task_name.

(** ** Sample worlds *)

Definition default_configuration (input : string) : Configuration :=
  mkConfiguration input MEDIUM true SE_MEDIUM true MODERATE.

Definition riff : bytes := [Byte.x52; Byte.x49; Byte.x46; Byte.x46].

(** Libraries that succeed: a three-sample recording at 2 Hz, a denoiser
    that returns its input, writers that store four bytes per file. *)
Definition working_libs : Libs Q :=
  mkLibs
    (fun _ _ => Ok ([1#10; 2#10; 3#10]%Q, 2))
    (fun args => Ok (nr_y args))
    (fun file _ _ fs0 => (Ok tt, <[file := riff]> fs0))
    (fun _ _ _ => Ok riff)
    (fun wav_buffer => Ok wav_buffer)
    (fun _ out_f _ fs0 => (Ok tt, <[out_f := riff]> fs0)).

(** Libraries whose writers create the file, write its first byte and then
    fail. *)
Definition failing_writer_libs : Libs Q :=
  mkLibs
    (lib_load working_libs)
    (lib_reduce_noise working_libs)
    (fun file _ _ fs0 =>
       (Raise (Exception "No space left on device"), <[file := [Byte.x52]]> fs0))
    (lib_write_buffer working_libs)
    (lib_from_wav working_libs)
    (fun _ out_f _ fs0 =>
       (Raise (Exception "Encoding failed"), <[out_f := []]> fs0)).

(** Libraries that cannot read the input. *)
Definition failing_loader_libs : Libs Q :=
  mkLibs
    (fun _ _ => Raise (Exception "No such file or directory"))
    (lib_reduce_noise working_libs)
    (lib_write working_libs)
    (lib_write_buffer working_libs)
    (lib_from_wav working_libs)
    (lib_export working_libs).

Definition empty_world : World Q := mkWorld ∅ [] false None.

(** ** The enumerations of [src/audio/task.py] and their values *)

Definition NoiseReductionLevel_value (level : NoiseReductionLevel) : string :=
  match level with
  | LIGHT => "light"
  | MEDIUM => "medium"
  | STRONG => "strong"
  end.

Definition SpeechEnhancementLevel_value (level : SpeechEnhancementLevel) : string :=
  match level with
  | SE_LIGHT => "light"
  | SE_MEDIUM => "medium"
  | SE_STRONG => "strong"
  end.

Definition BackgroundNoiseLevel_value (level : BackgroundNoiseLevel) : string :=
  match level with
  | MINIMAL => "minimal"
  | MODERATE => "moderate"
  | AGGRESSIVE => "aggressive"
  end.

(** The [ValueError] of an enumeration called on a text that is not the
    value of a member. *)
Definition ValueError (text class_name : string) : exn :=
  Exception ("'" +:+ text +:+ "' is not a valid " +:+ class_name).

(** [NoiseReductionLevel(text)]: the member whose value is [text]. *)
Definition NoiseReductionLevel_of_value (text : string) : result NoiseReductionLevel :=
  if String.eqb text "light" then Ok LIGHT
  else if String.eqb text "medium" then Ok MEDIUM
  else if String.eqb text "strong" then Ok STRONG
  else Raise (ValueError text "NoiseReductionLevel").

(** [SpeechEnhancementLevel(text)]. *)
Definition SpeechEnhancementLevel_of_value (text : string)
    : result SpeechEnhancementLevel :=
  if String.eqb text "light" then Ok SE_LIGHT
  else if String.eqb text "medium" then Ok SE_MEDIUM
  else if String.eqb text "strong" then Ok SE_STRONG
  else Raise (ValueError text "SpeechEnhancementLevel").

(** [BackgroundNoiseLevel(text)]. *)
Definition BackgroundNoiseLevel_of_value (text : string)
    : result BackgroundNoiseLevel :=
  if String.eqb text "minimal" then Ok MINIMAL
  else if String.eqb text "moderate" then Ok MODERATE
  else if String.eqb text "aggressive" then Ok AGGRESSIVE
  else Raise (ValueError text "BackgroundNoiseLevel").

(** ** [TaskDialog] of [src/gui/task_dialog.py] *)

(** The widgets [get_configuration] reads. *)
Record TaskDialog := mkTaskDialog {
  file_path_text : string;
  noise_combo_text : string;
  speech_check_checked : bool;
  enhancement_combo_text : string;
  clarity_check_checked : bool;
  noise_suppression_combo_text : string
}.

(** [TaskDialog.__init__]: no file, the medium levels, both boxes checked. *)
Definition TaskDialog_init : TaskDialog :=
  mkTaskDialog ""
    (NoiseReductionLevel_value MEDIUM) true
    (SpeechEnhancementLevel_value SE_MEDIUM) true
    (BackgroundNoiseLevel_value MODERATE).

(** [TaskDialog.browse_file], given the path the file dialog returned (empty
    when it was dismissed). *)
Definition browse_file (file_path : string) (self : TaskDialog) : TaskDialog :=
  if negb (String.eqb file_path "") then
    mkTaskDialog file_path (noise_combo_text self) (speech_check_checked self)
      (enhancement_combo_text self) (clarity_check_checked self)
      (noise_suppression_combo_text self)
  else self.

(** [TaskDialog.get_configuration]: the entries of the dictionary are
    evaluated in order, so the first text that is not a value raises. *)
Definition get_configuration (self : TaskDialog) : result Configuration :=
  match NoiseReductionLevel_of_value (noise_combo_text self) with
  | Raise e => Raise e
  | Ok noise_reduction_level =>
      match SpeechEnhancementLevel_of_value (enhancement_combo_text self) with
      | Raise e => Raise e
      | Ok speech_enhancement_level =>
          match BackgroundNoiseLevel_of_value (noise_suppression_combo_text self) with
          | Raise e => Raise e
          | Ok background_noise_level =>
              Ok (mkConfiguration (file_path_text self) noise_reduction_level
                    (speech_check_checked self) speech_enhancement_level
                    (clarity_check_checked self) background_noise_level)
          end
      end
  end.

(** ** The batch path of [src/audio/processor.py] *)

Section BatchProcessor.
Context {sample : Type}.
Variable lib : Libs sample.

Local Open Scope py_scope.

(** [AudioProcessor._process_task]: the stages without progress reports; the
    handler prints the error and returns. *)
Definition _process_task (task : AudioTask) : M sample unit :=
  try_except
    (loaded <- load lib (input_path task) ;;
     let '(y, sr) := loaded in
     y_clean <- _apply_noise_reduction lib y sr (noise_reduction_level task) ;;
     y_clean <- (if enable_speech_enhancement task
                 then _enhance_speech y_clean sr
                 else ret y_clean) ;;
     write lib (output_path task) y_clean sr)
    (fun _ => ret tt).

(** The [AudioProcessor] during a batch: the world, its [is_processing]
    flag, and the number of loop tests left before another thread runs
    [stop_processing] ([None]: no request). *)
Record Batch := mkBatch {
  batch_world : World sample;
  is_processing : bool;
  pending_stop_processing : option nat
}.

(** [AudioProcessor.stop_processing]. *)
Definition stop_processing (self : Batch) : Batch :=
  mkBatch (batch_world self) false (pending_stop_processing self).

(** The point before the loop tests the flag: a pending request is counted
    down and executed when due.  A request that arrives while a task is
    being processed takes effect here, at the next test. *)
Definition batch_yield (self : Batch) : Batch :=
  match pending_stop_processing self with
  | None => self
  | Some (S k) => mkBatch (batch_world self) (is_processing self) (Some k)
  | Some O =>
      let self1 := stop_processing self in
      mkBatch (batch_world self1) (is_processing self1) None
  end.

(** The [for] loop of [process_tasks]. *)
Fixpoint process_tasks_loop (tasks : list AudioTask) (self : Batch)
    : result unit * Batch :=
  match tasks with
  | [] => (Ok tt, self)
  | task :: rest =>
      let self := batch_yield self in
      if negb (is_processing self) then (Ok tt, self)
      else
        match _process_task task (batch_world self) with
        | (Ok _, w) =>
            process_tasks_loop rest
              (mkBatch w (is_processing self) (pending_stop_processing self))
        | (Raise e, w) =>
            (Raise e, mkBatch w (is_processing self) (pending_stop_processing self))
        end
  end.

(** [AudioProcessor.process_tasks]. *)
Definition process_tasks (tasks : list AudioTask) (self : Batch)
    : result unit * Batch :=
  process_tasks_loop tasks
    (mkBatch (batch_world self) true (pending_stop_processing self)).

(** The tasks one after the other, without the flag. *)
Fixpoint process_each (tasks : list AudioTask) (w : World sample) : World sample :=
  match tasks with
  | [] => w
  | task :: rest => process_each rest (snd (_process_task task w))
  end.

End BatchProcessor.

(** ** The other operations of [MainWindow] *)

(** The calls on widgets, threads and message boxes. *)
Inductive ui_call :=
  | item_set_running (item : TaskItem) (running : bool)
  | item_set_progress (item : TaskItem) (value : Z)
  | item_set_status (item : TaskItem) (success : bool) (message : string)
  | item_deleteLater (item : TaskItem)
  | thread_start (task : AudioTask)
  | thread_stop (task : AudioTask)
  | thread_wait (task : AudioTask)
  | QMessageBox_warning (title text : string).

(** The window together with the calls it has made, in order. *)
Record Gui := mkGui { window : MainWindow; ui : list ui_call }.

(** The [KeyError] of a dictionary without the key. *)
Definition KeyError (key : string) : exn := Exception ("'" +:+ key +:+ "'").

(** [MainWindow.start_task]. *)
Definition start_task (task_name : string) (self : Gui) : result unit * Gui :=
  match tasks (window self) !! task_name, processing_threads (window self) !! task_name with
  | Some (task, task_item), None =>
      (Ok tt,
       mkGui (mkMainWindow (tasks (window self))
                (<[task_name := task]> (processing_threads (window self)))
                (task_layout (window self)))
             (ui self ++ [thread_start task; item_set_running task_item true]))
  | _, _ => (Ok tt, self)
  end.

(** [MainWindow.stop_task]: the thread is taken out of the dictionary first,
    then stopped and waited for; the item is looked up after that. *)
Definition stop_task (task_name : string) (self : Gui) : result unit * Gui :=
  match processing_threads (window self) !! task_name with
  | Some thread =>
      let window1 :=
        mkMainWindow (tasks (window self))
          (delete task_name (processing_threads (window self)))
          (task_layout (window self)) in
      let ui1 := ui self ++ [thread_stop thread; thread_wait thread] in
      match tasks (window self) !! task_name with
      | Some (_, task_item) =>
          (Ok tt, mkGui window1 (ui1 ++ [item_set_running task_item false]))
      | None => (Raise (KeyError task_name), mkGui window1 ui1)
      end
  | None => (Ok tt, self)
  end.

(** [MainWindow.remove_task]. *)
Definition remove_task (task_name : string) (self : Gui) : result unit * Gui :=
  match tasks (window self) !! task_name with
  | Some _ =>
      match stop_task task_name self with
      | (Ok _, self1) =>
          match tasks (window self1) !! task_name with
          | Some (_, task_item) =>
              (Ok tt,
               mkGui (mkMainWindow (delete task_name (tasks (window self1)))
                        (processing_threads (window self1))
                        (task_layout (window self1)))
                     (ui self1 ++ [item_deleteLater task_item]))
          | None => (Raise (KeyError task_name), self1)
          end
      | (Raise e, self1) => (Raise e, self1)
      end
  | None => (Ok tt, self)
  end.

(** [MainWindow.update_task_progress]. *)
Definition update_task_progress (task_name : string) (progress : Z) (self : Gui)
    : result unit * Gui :=
  match tasks (window self) !! task_name with
  | Some (_, task_item) =>
      (Ok tt, mkGui (window self) (ui self ++ [item_set_progress task_item progress]))
  | None => (Ok tt, self)
  end.

(** [MainWindow.on_task_completed]. *)
Definition on_task_completed (task_name : string) (success : bool) (message : string)
    (self : Gui) : result unit * Gui :=
  match processing_threads (window self) !! task_name with
  | Some _ =>
      match stop_task task_name self with
      | (Ok _, self1) =>
          let self2 :=
            match tasks (window self1) !! task_name with
            | Some (_, task_item) =>
                mkGui (window self1)
                      (ui self1 ++ [item_set_status task_item success message])
            | None => self1
            end in
          if negb success then
            (Ok tt,
             mkGui (window self2)
                   (ui self2 ++
                    [QMessageBox_warning "Task Failed"
                       ("Task '" +:+ task_name +:+ "' failed: " +:+ message)]))
          else (Ok tt, self2)
      | (Raise e, self1) => (Raise e, self1)
      end
  | None => (Ok tt, self)
  end.

(** A [for] loop over names that stops at the first exception. *)
Fixpoint for_each (body : string -> Gui -> result unit * Gui)
    (names : list string) (self : Gui) : result unit * Gui :=
  match names with
  | [] => (Ok tt, self)
  | task_name :: rest =>
      match body task_name self with
      | (Ok _, self1) => for_each body rest self1
      | (Raise e, self1) => (Raise e, self1)
      end
  end.

(** The body of the loop of [start_all_tasks]:
    [if task_name not in self.processing_threads: self.start_task(task_name)]. *)
Definition start_if_idle (task_name : string) (self : Gui) : result unit * Gui :=
  match processing_threads (window self) !! task_name with
  | None => start_task task_name self
  | Some _ => (Ok tt, self)
  end.

(** [MainWindow.start_all_tasks]; [names] is the order in which the loop
    visits the keys of [self.tasks]. *)
Definition start_all_tasks (names : list string) (self : Gui) : result unit * Gui :=
  if decide (tasks (window self) = ∅) then
    (Ok tt,
     mkGui (window self) (ui self ++ [QMessageBox_warning "Warning" "No tasks to process!"]))
  else for_each start_if_idle names self.

(** [MainWindow.stop_all_tasks]; [names] is
    [list(self.processing_threads.keys())]. *)
Definition stop_all_tasks (names : list string) (self : Gui) : result unit * Gui :=
  for_each stop_task names self.

(** [names] lists the keys of a dictionary, each once. *)
Definition lists_keys {V} (names : list string) (m : gmap string V) : Prop :=
  NoDup names /\ forall task_name, task_name ∈ names <-> is_Some (m !! task_name).


(* ===================================================================== *)
(** * Part II: properties                                                 *)
(* ===================================================================== *)

(** ** Strings *)

(** Decide the integer comparisons of the goal that [lia] can settle. *)
Ltac zcmp :=
  repeat match goal with
    | |- context [?a <=? ?b] =>
        first [ rewrite (proj2 (Z.leb_le a b)) by lia
              | rewrite (proj2 (Z.leb_gt a b)) by lia ]
    | |- context [?a <? ?b] =>
        first [ rewrite (proj2 (Z.ltb_lt a b)) by lia
              | rewrite (proj2 (Z.ltb_ge a b)) by lia ]
    | |- context [?a =? ?b] =>
        first [ rewrite (proj2 (Z.eqb_eq a b)) by lia
              | rewrite (proj2 (Z.eqb_neq a b)) by lia ]
    end.

Module PyStrFacts.
Import PyStr.

Lemma append_cons (a : ascii) (s t : string) :
  String a s +:+ t = String a (s +:+ t).
Proof. reflexivity. Qed.

Lemma append_nil_l (t : string) : "" +:+ t = t.
Proof. reflexivity. Qed.

Lemma append_empty_r (s : string) : s +:+ "" = s.
Proof.
  induction s as [|a s IH]; [reflexivity |].
  rewrite append_cons, IH. reflexivity.
Qed.

Lemma append_assoc (a b c : string) : (a +:+ b) +:+ c = a +:+ (b +:+ c).
Proof.
  induction a as [|x a IH]; [reflexivity |].
  rewrite !append_cons, IH. reflexivity.
Qed.

Lemma length_append (a b : string) :
  String.length (a +:+ b) = (String.length a + String.length b)%nat.
Proof.
  induction a as [|x a IH]; [reflexivity |].
  rewrite append_cons. simpl. rewrite IH. reflexivity.
Qed.

Lemma len_append (a b : string) : len (a +:+ b) = len a + len b.
Proof. unfold len. rewrite length_append. lia. Qed.

Lemma take_drop (n : nat) (s : string) : take n s +:+ drop n s = s.
Proof.
  revert s. induction n as [|n IH]; intros [|a s]; try reflexivity.
  simpl take. simpl drop. rewrite append_cons, IH. reflexivity.
Qed.

Lemma length_take (n : nat) (s : string) :
  (n <= String.length s)%nat -> String.length (take n s) = n.
Proof.
  revert s. induction n as [|n IH]; intros [|a s]; simpl; intros H;
    try reflexivity; try lia.
  rewrite IH; [reflexivity | lia].
Qed.

Lemma take_app_length (a b : string) : take (String.length a) (a +:+ b) = a.
Proof.
  induction a as [|x a IH]; [now destruct b |].
  rewrite append_cons. simpl. rewrite IH. reflexivity.
Qed.

Lemma drop_app_length (a b : string) : drop (String.length a) (a +:+ b) = b.
Proof.
  induction a as [|x a IH]; [reflexivity |].
  rewrite append_cons. simpl. exact IH.
Qed.

(** *** [contains] *)

Lemma contains_append (c : ascii) (a b : string) :
  contains c (a +:+ b) = contains c a || contains c b.
Proof.
  induction a as [|x a IH]; [reflexivity |].
  rewrite append_cons. simpl. rewrite IH. now rewrite orb_assoc.
Qed.

Lemma contains_take (c : ascii) (n : nat) (s : string) :
  contains c s = false -> contains c (take n s) = false.
Proof.
  intros H. rewrite <- (take_drop n s), contains_append in H.
  now apply orb_false_iff in H.
Qed.

Lemma contains_drop (c : ascii) (n : nat) (s : string) :
  contains c s = false -> contains c (drop n s) = false.
Proof.
  intros H. rewrite <- (take_drop n s), contains_append in H.
  now apply orb_false_iff in H.
Qed.

(** *** [rfind] *)

Lemma rfind_from_shift (c : ascii) (s : string) (pos : Z) :
  0 <= pos ->
  rfind_from c s pos = if 0 <=? rfind c s then rfind c s + pos else -1.
Proof.
  unfold rfind. revert pos.
  induction s as [|a s IH]; intros pos Hpos; [reflexivity |].
  cbn [rfind_from]. change (0 + 1) with 1.
  rewrite (IH (pos + 1)) by lia. rewrite (IH 1) by lia.
  destruct (0 <=? rfind_from c s 0) eqn:E.
  - apply Z.leb_le in E.
    rewrite (proj2 (Z.leb_le 0 (rfind_from c s 0 + (pos + 1)))) by lia.
    rewrite (proj2 (Z.leb_le 0 (rfind_from c s 0 + 1))) by lia.
    rewrite (proj2 (Z.leb_le 0 (rfind_from c s 0 + 1))) by lia.
    lia.
  - cbn. destruct (Ascii.eqb a c); cbn; [lia | reflexivity].
Qed.

Lemma rfind_cons (c a : ascii) (s : string) :
  rfind c (String a s) =
    if 0 <=? rfind c s then rfind c s + 1
    else if Ascii.eqb a c then 0 else -1.
Proof.
  unfold rfind at 1. cbn [rfind_from]. change (0 + 1) with 1.
  rewrite rfind_from_shift by lia.
  destruct (0 <=? rfind c s) eqn:E; [| reflexivity].
  apply Z.leb_le in E. zcmp. reflexivity.
Qed.

Lemma rfind_range (c : ascii) (s : string) :
  rfind c s = -1 \/ (0 <= rfind c s < len s).
Proof.
  induction s as [|a s IH]; [left; reflexivity |].
  rewrite rfind_cons. unfold len in *. simpl String.length.
  destruct (0 <=? rfind c s) eqn:E.
  - apply Z.leb_le in E. right. lia.
  - destruct (Ascii.eqb a c); [right; lia | left; reflexivity].
Qed.

Lemma rfind_none_iff (c : ascii) (s : string) :
  rfind c s = -1 <-> contains c s = false.
Proof.
  induction s as [|a s IH]; [simpl; tauto |].
  rewrite rfind_cons. simpl contains.
  destruct (rfind_range c s) as [Hr | Hr].
  - rewrite Hr. simpl. destruct (Ascii.eqb a c); simpl.
    + split; intros H; discriminate H.
    + rewrite <- IH. tauto.
  - replace (0 <=? rfind c s) with true by (symmetry; apply Z.leb_le; lia).
    split; intros H; [lia |].
    apply orb_false_iff in H. destruct H as [_ H].
    apply IH in H. lia.
Qed.

Lemma rfind_append (c : ascii) (a b : string) :
  rfind c (a +:+ b) =
    if 0 <=? rfind c b then len a + rfind c b else rfind c a.
Proof.
  induction a as [|x a IH].
  - rewrite append_nil_l. unfold len. simpl.
    destruct (rfind_range c b) as [H | H].
    + rewrite H. reflexivity.
    + replace (0 <=? rfind c b) with true by (symmetry; apply Z.leb_le; lia).
      lia.
  - rewrite append_cons, !rfind_cons, IH. unfold len. simpl String.length.
    destruct (0 <=? rfind c b) eqn:E.
    + apply Z.leb_le in E.
      replace (0 <=? Z.of_nat (String.length a) + rfind c b) with true
        by (symmetry; apply Z.leb_le; lia).
      lia.
    + reflexivity.
Qed.

Lemma rfind_drop (c : ascii) (s : string) :
  0 <= rfind c s -> rfind c (drop (Z.to_nat (rfind c s)) s) = 0.
Proof.
  induction s as [|a s IH]; [unfold rfind; simpl; lia |].
  rewrite rfind_cons.
  destruct (0 <=? rfind c s) eqn:E.
  - apply Z.leb_le in E. intros _.
    replace (Z.to_nat (rfind c s + 1)) with (S (Z.to_nat (rfind c s))) by lia.
    simpl drop. apply IH. exact E.
  - destruct (Ascii.eqb a c) eqn:Ea; [| lia].
    intros _. simpl drop. rewrite rfind_cons, E, Ea. reflexivity.
Qed.

(** *** The last character *)

Lemma rfind_last_endswith (c : ascii) (s : string) :
  0 <= rfind c s -> rfind c s = len s - 1 -> endswith c s = true.
Proof.
  induction s as [|a s IH]; [unfold rfind; simpl; lia |].
  rewrite rfind_cons. unfold len in *. simpl String.length.
  destruct s as [|b s].
  - simpl. unfold rfind. simpl. destruct (Ascii.eqb a c); [reflexivity | lia].
  - change (endswith c (String a (String b s))) with (endswith c (String b s)).
    destruct (0 <=? rfind c (String b s)) eqn:E.
    + apply Z.leb_le in E. intros _ H. apply IH; [exact E | lia].
    + simpl String.length. destruct (Ascii.eqb a c); lia.
Qed.

End PyStrFacts.

(** ** Paths *)

Module PathlibFacts.
Import PyStr PyStrFacts.
Import Pathlib (sep, dot, mkPath, root, tail, Path, str, parent, joinpath,
                suffix, stem, keep_component, splitroot, good_component, wf).

(** *** [split] and [join] *)

Lemma split_not_nil (c : ascii) (s : string) : split c s <> [].
Proof.
  induction s as [|a s IH]; simpl; [discriminate |].
  destruct (Ascii.eqb a c); [discriminate |].
  destruct (split c s); discriminate.
Qed.

Lemma split_components (c : ascii) (s : string) :
  Forall (fun x => contains c x = false) (split c s).
Proof.
  induction s as [|a s IH]; simpl.
  - constructor; [reflexivity | constructor].
  - destruct (Ascii.eqb a c) eqn:Ea.
    + constructor; [reflexivity | exact IH].
    + destruct (split c s) as [|x xs] eqn:Es.
      * exfalso. exact (split_not_nil c s Es).
      * inversion IH as [|? ? Hx Hxs]; subst.
        constructor; [simpl; now rewrite Ea, Hx | exact Hxs].
Qed.

Lemma split_plain (c : ascii) (x : string) :
  contains c x = false -> split c x = [x].
Proof.
  induction x as [|a x IH]; simpl; [reflexivity |].
  intros H. apply orb_false_iff in H. destruct H as [Ha Hx].
  rewrite Ha, (IH Hx). reflexivity.
Qed.

Lemma split_append_sep (c : ascii) (x r : string) :
  contains c x = false -> split c (x +:+ String c r) = x :: split c r.
Proof.
  induction x as [|a x IH]; intros H.
  - rewrite append_nil_l. simpl. now rewrite Ascii.eqb_refl.
  - simpl in H. apply orb_false_iff in H. destruct H as [Ha Hx].
    rewrite append_cons. simpl. rewrite Ha, (IH Hx). reflexivity.
Qed.

Lemma split_join (c : ascii) (l : list string) :
  l <> [] -> Forall (fun x => contains c x = false) l ->
  split c (join c l) = l.
Proof.
  induction l as [|x xs IH]; intros Hne Hall; [contradiction |].
  inversion Hall as [|? ? Hx Hxs]; subst.
  destruct xs as [|y ys].
  - simpl. apply split_plain. exact Hx.
  - change (join c (x :: y :: ys)) with (x +:+ String c (join c (y :: ys))).
    rewrite split_append_sep by exact Hx.
    rewrite IH; [reflexivity | discriminate | exact Hxs].
Qed.

(** *** Well-formed paths *)

Lemma filter_keep_good (l : list string) :
  Forall good_component l -> List.filter keep_component l = l.
Proof.
  induction 1 as [|x l [Hk _] _ IH]; simpl; [reflexivity |].
  rewrite Hk, IH. reflexivity.
Qed.

Lemma good_filter_split (s : string) :
  Forall good_component (List.filter keep_component (split sep s)).
Proof.
  apply List.Forall_forall. intros x Hx. apply List.filter_In in Hx.
  destruct Hx as [Hin Hk]. split; [exact Hk |].
  pose proof (split_components sep s) as Hs.
  rewrite List.Forall_forall in Hs. apply Hs. exact Hin.
Qed.

Lemma splitroot_root (s : string) :
  fst (splitroot s) = "" \/ fst (splitroot s) = "/" \/ fst (splitroot s) = "//".
Proof.
  unfold splitroot. destruct s as [|c s]; [left; reflexivity |].
  destruct (Ascii.eqb c sep); [| left; reflexivity].
  destruct (_ =? 2); simpl; auto.
Qed.

Lemma Path_wf (s : string) : wf (Path s).
Proof.
  unfold Path. destruct (String.eqb s "").
  - split; [left; reflexivity | constructor].
  - pose proof (splitroot_root s) as Hr.
    destruct (splitroot s) as [rt rel]. split; [exact Hr |].
    apply good_filter_split.
Qed.

Lemma good_head (x : string) :
  good_component x -> exists a x', x = String a x' /\ Ascii.eqb a sep = false.
Proof.
  intros [Hk Hs]. destruct x as [|a x']; [discriminate Hk |].
  exists a, x'. split; [reflexivity |].
  simpl in Hs. now apply orb_false_iff in Hs.
Qed.

Lemma join_head (x : string) (xs : list string) :
  exists r, join sep (x :: xs) = x +:+ r.
Proof.
  destruct xs as [|y ys].
  - exists "". simpl. now rewrite append_empty_r.
  - eexists. reflexivity.
Qed.

(** Parsing what [str] prints gives the path back. *)
Lemma Path_str (p : Pathlib.PurePath) : wf p -> Path (str p) = p.
Proof.
  destruct p as [rt tl]. intros [Hroot Hall]. simpl in Hroot, Hall.
  destruct tl as [|x xs].
  - destruct Hroot as [-> | [-> | ->]]; reflexivity.
  - inversion Hall as [|? ? Hx Hxs]; subst.
    destruct (good_head x Hx) as (a & x' & -> & Ha).
    destruct (join_head (String a x') xs) as [r Hr].
    assert (Hsplit : List.filter keep_component
                       (split sep (join sep (String a x' :: xs)))
                     = String a x' :: xs).
    { rewrite split_join.
      - apply filter_keep_good. exact Hall.
      - discriminate.
      - eapply List.Forall_impl; [| exact Hall]. intros ? [_ H]. exact H. }
    unfold str, Path. simpl root. simpl tail.
    rewrite Hr in *. rewrite append_cons in *.
    destruct Hroot as [-> | [-> | ->]].
    + rewrite append_nil_l. simpl String.eqb.
      unfold splitroot. rewrite Ha. rewrite Hsplit. reflexivity.
    + change ("/" +:+ String a (x' +:+ r)) with (String sep (String a (x' +:+ r))).
      simpl String.eqb. unfold splitroot.
      change (Ascii.eqb sep sep) with true. cbv iota.
      simpl lstrip. change (Ascii.eqb sep sep) with true. rewrite Ha.
      unfold len. simpl String.length. zcmp. rewrite Hsplit. reflexivity.
    + change ("//" +:+ String a (x' +:+ r))
        with (String sep (String sep (String a (x' +:+ r)))).
      simpl String.eqb. unfold splitroot.
      change (Ascii.eqb sep sep) with true. cbv iota.
      simpl lstrip. change (Ascii.eqb sep sep) with true. rewrite Ha.
      unfold len. simpl String.length. zcmp. rewrite Hsplit. reflexivity.
Qed.

(** A good component parses to the relative path made of it alone. *)
Lemma Path_component (k : string) :
  good_component k -> Path k = mkPath "" [k].
Proof.
  intros Hk.
  assert (Hstr : str (mkPath "" [k]) = k).
  { destruct (good_head k Hk) as (a & k' & -> & _). reflexivity. }
  rewrite <- Hstr at 1. apply Path_str.
  split; [left; reflexivity | constructor; [exact Hk | constructor]].
Qed.

End PathlibFacts.

(** ** The task descriptor *)

Module TaskFacts.
Import PyStr PyStrFacts PathlibFacts.
Import Pathlib (sep, dot, mkPath, root, tail, Path, str, parent, joinpath,
                suffix, stem, keep_component, good_component, wf).

Lemma Forall_removelast {A} (P : A -> Prop) (l : list A) :
  Forall P l -> Forall P (List.removelast l).
Proof.
  induction 1 as [|x l Hx Hl IH]; simpl; [constructor |].
  destruct l; [constructor | constructor; assumption].
Qed.

Lemma last_good (l : list string) :
  Forall good_component l -> List.last l "" = "" \/ good_component (List.last l "").
Proof.
  induction 1 as [|x l Hx Hl IH]; simpl; [left; reflexivity |].
  destruct l; [right; exact Hx | exact IH].
Qed.

Lemma name_no_sep (p : Pathlib.PurePath) :
  wf p -> contains sep (Pathlib.name p) = false.
Proof.
  intros [_ Hall]. unfold Pathlib.name.
  destruct (last_good _ Hall) as [-> | [_ H]]; [reflexivity | exact H].
Qed.

Lemma stem_suffix_name (p : Pathlib.PurePath) :
  stem p +:+ suffix p = Pathlib.name p.
Proof.
  unfold stem, suffix.
  destruct ((0 <? _) && _); [apply take_drop | apply append_empty_r].
Qed.

Lemma stem_no_sep (p : Pathlib.PurePath) : wf p -> contains sep (stem p) = false.
Proof.
  intros Hwf. pose proof (name_no_sep p Hwf) as H.
  rewrite <- stem_suffix_name, contains_append in H.
  now apply orb_false_iff in H.
Qed.

Lemma suffix_no_sep (p : Pathlib.PurePath) : wf p -> contains sep (suffix p) = false.
Proof.
  intros Hwf. pose proof (name_no_sep p Hwf) as H.
  rewrite <- stem_suffix_name, contains_append in H.
  now apply orb_false_iff in H.
Qed.

Lemma length_cleaned_name (p : Pathlib.PurePath) :
  String.length (cleaned_name p) = (String.length (Pathlib.name p) + 8)%nat.
Proof.
  unfold cleaned_name. rewrite <- (stem_suffix_name p), !length_append.
  simpl. lia.
Qed.

Lemma keep_long (x : string) : (2 <= String.length x)%nat -> keep_component x = true.
Proof.
  destruct x as [|a [|b x]]; simpl; try lia. intros _.
  unfold keep_component. simpl. now destruct (Ascii.eqb a ".").
Qed.

Lemma cleaned_name_good (p : Pathlib.PurePath) :
  wf p -> good_component (cleaned_name p).
Proof.
  intros Hwf. split.
  - apply keep_long. rewrite length_cleaned_name. lia.
  - unfold cleaned_name. rewrite !contains_append.
    rewrite (stem_no_sep p Hwf), (suffix_no_sep p Hwf). reflexivity.
Qed.

(** The output path, parsed again: the input's root and directories,
    followed by the cleaned name. *)
Lemma Path_output_path (t : AudioTask) :
  let p := Path (input_path t) in
  Path (output_path t) =
    mkPath (root p) (List.removelast (tail p) ++ [cleaned_name p]).
Proof.
  intros p. pose proof (Path_wf (input_path t)) as Hwf. fold p in Hwf.
  unfold output_path. fold p. unfold joinpath.
  rewrite (Path_component _ (cleaned_name_good p Hwf)). simpl.
  apply Path_str. destruct Hwf as [Hroot Hall]. split; [exact Hroot |].
  simpl. apply Forall_app. split.
  - apply Forall_removelast. exact Hall.
  - constructor; [apply cleaned_name_good; split; assumption | constructor].
Qed.

Lemma name_output_path (t : AudioTask) :
  Pathlib.name (Path (output_path t)) = cleaned_name (Path (input_path t)).
Proof.
  rewrite Path_output_path. unfold Pathlib.name. simpl.
  apply List.last_last.
Qed.

(** The suffix and the stem of a cleaned name, unless the name ends in a
    dot. *)
Lemma rfind_cleaned_tail (x : string) :
  rfind dot ("_cleaned" +:+ x) =
    if 0 <=? rfind dot x then 8 + rfind dot x else -1.
Proof. rewrite rfind_append. reflexivity. Qed.

Lemma split_cleaned_name (p : Pathlib.PurePath) :
  let q := mkPath (root p) (List.removelast (tail p) ++ [cleaned_name p]) in
  endswith dot (Pathlib.name p) = false ->
  stem q = stem p +:+ "_cleaned" /\ suffix q = suffix p.
Proof.
  intros q Hdot.
  assert (Hq : Pathlib.name q = cleaned_name p).
  { unfold Pathlib.name, q. simpl. apply List.last_last. }
  unfold stem at 1, suffix at 1. rewrite Hq.
  unfold cleaned_name, stem, suffix.
  set (nm := Pathlib.name p) in *. set (i := rfind dot nm).
  pose proof (rfind_range dot nm) as Hrange. fold i in Hrange.
  destruct ((0 <? i) && (i <? len nm - 1)) eqn:Hs.
  - apply andb_true_iff in Hs. destruct Hs as [H0 H1].
    apply Z.ltb_lt in H0, H1.
    set (a := take (Z.to_nat i) nm). set (b := drop (Z.to_nat i) nm).
    assert (Hab : a +:+ b = nm) by apply take_drop.
    assert (Hla : len a = i).
    { unfold len, a. rewrite length_take; unfold len in *; lia. }
    assert (Hlb : len b = len nm - i).
    { rewrite <- Hab, len_append. lia. }
    assert (Hrb : rfind dot b = 0) by (apply rfind_drop; fold i; lia).
    assert (Hr : rfind dot (a +:+ "_cleaned" +:+ b) = i + 8).
    { rewrite rfind_append, rfind_cleaned_tail, Hrb. simpl. lia. }
    rewrite Hr. rewrite !len_append. change (len "_cleaned") with 8.
    zcmp. simpl andb. cbv iota.
    replace (Z.to_nat (i + 8)) with (String.length (a +:+ "_cleaned")).
    + rewrite <- (append_assoc a "_cleaned" b).
      rewrite take_app_length, drop_app_length. split; reflexivity.
    + rewrite length_append. unfold len in Hla. simpl. lia.
  - assert (Hi : i <= 0).
    { destruct (Z.leb_spec i 0) as [H | H]; [exact H | exfalso].
      apply andb_false_iff in Hs. destruct Hs as [Hs | Hs].
      - apply Z.ltb_ge in Hs. lia.
      - apply Z.ltb_ge in Hs.
        assert (endswith dot nm = true)
          by (apply rfind_last_endswith; fold i; lia).
        congruence. }
    rewrite append_empty_r.
    assert (Hr : rfind dot (nm +:+ "_cleaned") = i).
    { rewrite rfind_append. reflexivity. }
    rewrite Hr. zcmp. simpl andb. cbv iota. split; reflexivity.
Qed.

End TaskFacts.

(** C3, where it fails: the stem and the extension of the output path of an
    input whose file name ends in a dot.  For ["/lectures/notes."] the stem
    is ["notes."] and the suffix is empty, the output path is
    ["/lectures/notes._cleaned"], whose stem is ["notes"] and whose suffix is
    ["._cleaned"]. *)
Lemma output_path_trailing_dot :
  let t := default_task "/lectures/notes." in
  let p := Pathlib.Path (input_path t) in
  let o := Pathlib.Path (output_path t) in
  output_path t = "/lectures/notes._cleaned" /\
  ~ (Pathlib.stem o = Pathlib.stem p +:+ "_cleaned" /\
     Pathlib.suffix o = Pathlib.suffix p).
Proof.
  split; [reflexivity |]. vm_compute. intros [H _]. discriminate H.
Qed.

(** C3, as the code has it: [output_path] is the string of
    [parent / (stem + "_cleaned" + suffix)]; parsed again it has the parent
    of the input and that file name, and it never equals the input path; its
    stem is the input's stem followed by [_cleaned] and its suffix is the
    input's suffix whenever the input's file name does not end in a dot. *)
Theorem output_path_next_to_input (t : AudioTask) :
  let p := Pathlib.Path (input_path t) in
  let o := Pathlib.Path (output_path t) in
  output_path t =
    Pathlib.str (Pathlib.joinpath (Pathlib.parent p)
                   (Pathlib.stem p +:+ "_cleaned" +:+ Pathlib.suffix p)) /\
  Pathlib.parent o = Pathlib.parent p /\
  Pathlib.name o = Pathlib.stem p +:+ "_cleaned" +:+ Pathlib.suffix p /\
  output_path t <> input_path t /\
  (PyStr.endswith Pathlib.dot (Pathlib.name p) = false ->
   Pathlib.stem o = Pathlib.stem p +:+ "_cleaned" /\
   Pathlib.suffix o = Pathlib.suffix p).
Proof.
  intros p o.
  assert (Ho : o = Pathlib.mkPath (Pathlib.root p)
                     (List.removelast (Pathlib.tail p) ++ [cleaned_name p]))
    by apply TaskFacts.Path_output_path.
  assert (Hname : Pathlib.name o = cleaned_name p)
    by apply TaskFacts.name_output_path.
  split; [reflexivity |]. split; [| split; [exact Hname | split]].
  - rewrite Ho. unfold Pathlib.parent. simpl. now rewrite List.removelast_last.
  - intros Heq.
    assert (Hlen : String.length (Pathlib.name o) = String.length (Pathlib.name p))
      by (unfold o, p; now rewrite Heq).
    rewrite Hname, TaskFacts.length_cleaned_name in Hlen. lia.
  - intros Hdot. rewrite Ho. apply TaskFacts.split_cleaned_name. exact Hdot.
Qed.

Lemma output_path_next_to_input_witness :
  let t := default_task "/lectures/week1/lecture1.wav" in
  output_path t = "/lectures/week1/lecture1_cleaned.wav" /\
  Pathlib.stem (Pathlib.Path (output_path t)) = "lecture1_cleaned" /\
  Pathlib.suffix (Pathlib.Path (output_path t)) = ".wav".
Proof.
  pose proof (output_path_next_to_input (default_task "/lectures/week1/lecture1.wav"))
    as (_ & _ & _ & _ & H).
  split; [reflexivity |]. exact (H eq_refl).
Defined.

(** ** Logs *)

Section LogFacts.
Context {sample : Type}.
Implicit Types l : list (event sample).

Lemma visible_app l1 l2 : visible (l1 ++ l2) = visible l1 ++ visible l2.
Proof. unfold visible. apply List.filter_app. Qed.

Lemma progress_values_app l1 l2 :
  progress_values (l1 ++ l2) = progress_values l1 ++ progress_values l2.
Proof.
  induction l1 as [|ev l1 IH]; [reflexivity |].
  destruct ev; simpl; rewrite IH; reflexivity.
Qed.

Lemma calls_app l1 l2 : calls (l1 ++ l2) = calls l1 ++ calls l2.
Proof.
  induction l1 as [|ev l1 IH]; [reflexivity |].
  destruct ev; simpl; rewrite IH; reflexivity.
Qed.

Lemma signals_app l1 l2 : signals (l1 ++ l2) = signals l1 ++ signals l2.
Proof.
  induction l1 as [|ev l1 IH]; [reflexivity |].
  destruct ev; simpl; rewrite IH; reflexivity.
Qed.

Lemma progress_values_visible l : progress_values (visible l) = progress_values l.
Proof.
  induction l as [|ev l IH]; [reflexivity |].
  destruct ev; simpl; rewrite ?IH; reflexivity.
Qed.

Lemma calls_visible l : calls (visible l) = calls l.
Proof.
  induction l as [|ev l IH]; [reflexivity |].
  destruct ev; simpl; rewrite ?IH; reflexivity.
Qed.

Lemma signals_visible l : signals (visible l) = signals l.
Proof.
  induction l as [|ev l IH]; [reflexivity |].
  destruct ev; simpl; rewrite ?IH; reflexivity.
Qed.

Lemma In_visible (ev : event sample) l :
  is_stop_request ev = false -> (In ev (visible l) <-> In ev l).
Proof.
  intros Hev. unfold visible. rewrite List.filter_In, Hev. simpl. tauto.
Qed.

End LogFacts.

(** ** Computations and the scheduler

    Two properties that every computation built from the operations of the
    pipeline has.  [sim]: what it returns, what it does to the files and what
    it makes visible do not depend on the [stop] request, whether one is
    pending or was executed.  [grows]: it only appends to the log, and only
    events of the given kind. *)

Section Simulation.
Context {sample : Type}.
Variable lib : Libs sample.

Local Abbreviation World := (World sample).
Local Abbreviation M := (M sample).

Definition obs_eq (w1 w2 : World) : Prop :=
  fs w1 = fs w2 /\ visible (log w1) = visible (log w2).

Definition sim {A} (m : M A) : Prop :=
  forall w1 w2, obs_eq w1 w2 ->
    fst (m w1) = fst (m w2) /\ obs_eq (snd (m w1)) (snd (m w2)).

Definition grows (P : event sample -> bool) {A} (m : M A) : Prop :=
  forall w, exists delta,
    log (snd (m w)) = log w ++ delta /\ forallb P delta = true /\
    thread_is_running (snd (m w)) =
      thread_is_running w && negb (existsb is_stop_request delta).

Lemma obs_eq_quiet (w : World) : obs_eq w (quiet w).
Proof. split; reflexivity. Qed.

Lemma sim_ret {A} (a : A) : sim (ret a).
Proof. intros w1 w2 H. split; [reflexivity | exact H]. Qed.

Lemma sim_raise {A} (e : exn) : sim (@raise sample A e).
Proof. intros w1 w2 H. split; [reflexivity | exact H]. Qed.

Lemma sim_bind {A B} (m : M A) (k : A -> M B) :
  sim m -> (forall a, sim (k a)) -> sim (bind m k).
Proof.
  intros Hm Hk w1 w2 H. unfold bind.
  destruct (Hm w1 w2 H) as [Hr Ho].
  destruct (m w1) as [[a1 | e1] w1'], (m w2) as [[a2 | e2] w2'];
    simpl in Hr, Ho; try discriminate Hr.
  - injection Hr as ->. apply Hk. exact Ho.
  - injection Hr as ->. split; [reflexivity | exact Ho].
Qed.

Lemma sim_try_except {A} (m : M A) (h : exn -> M A) :
  sim m -> (forall e, sim (h e)) -> sim (try_except m h).
Proof.
  intros Hm Hh w1 w2 H. unfold try_except.
  destruct (Hm w1 w2 H) as [Hr Ho].
  destruct (m w1) as [[a1 | e1] w1'], (m w2) as [[a2 | e2] w2'];
    simpl in Hr, Ho; try discriminate Hr.
  - injection Hr as ->. split; [reflexivity | exact Ho].
  - injection Hr as ->. apply Hh. exact Ho.
Qed.

Lemma sim_yield : sim (@yield sample).
Proof.
  intros w1 w2 [Hfs Hlog]. unfold yield.
  destruct (pending_stop w1) as [[|k1]|], (pending_stop w2) as [[|k2]|];
    (split; [reflexivity | split; simpl; rewrite ?visible_app, ?app_nil_r; assumption]).
Qed.

Lemma sim_add_event (ev : event sample) :
  is_stop_request ev = false -> sim (fun w => (Ok tt, add_event ev w)).
Proof.
  intros Hev w1 w2 [Hfs Hlog]. split; [reflexivity |].
  split; simpl; [exact Hfs |]. rewrite !visible_app, Hlog. reflexivity.
Qed.

Lemma sim_emit (ev : event sample) : is_stop_request ev = false -> sim (emit ev).
Proof.
  intros Hev. unfold emit. apply sim_bind; [apply sim_yield |].
  intros _. apply sim_add_event. exact Hev.
Qed.

Lemma sim_invoke {A} (c : call sample) (f : filesystem -> result A * filesystem) :
  sim (invoke c f).
Proof.
  unfold invoke. apply sim_bind; [apply sim_yield |].
  intros _ w1 w2 [Hfs Hlog]. rewrite Hfs.
  destruct (f (fs w2)) as [r fs']. split; [reflexivity |].
  split; simpl; [reflexivity |]. rewrite !visible_app, Hlog. reflexivity.
Qed.

Lemma grows_ret P {A} (a : A) : grows P (ret a).
Proof.
  intros w. exists []. simpl. rewrite app_nil_r, andb_true_r. auto.
Qed.

Lemma grows_raise P {A} (e : exn) : grows P (@raise sample A e).
Proof.
  intros w. exists []. simpl. rewrite app_nil_r, andb_true_r. auto.
Qed.

Lemma grows_app P (w w1 w2 : World) d1 d2 :
  log w1 = log w ++ d1 -> forallb P d1 = true ->
  thread_is_running w1 = thread_is_running w && negb (existsb is_stop_request d1) ->
  log w2 = log w1 ++ d2 -> forallb P d2 = true ->
  thread_is_running w2 = thread_is_running w1 && negb (existsb is_stop_request d2) ->
  log w2 = log w ++ (d1 ++ d2) /\ forallb P (d1 ++ d2) = true /\
  thread_is_running w2 =
    thread_is_running w && negb (existsb is_stop_request (d1 ++ d2)).
Proof.
  intros H1 P1 R1 H2 P2 R2.
  rewrite H2, H1, <- app_assoc, forallb_app, P1, P2, R2, R1, existsb_app.
  repeat split. rewrite negb_orb, andb_assoc. reflexivity.
Qed.

Lemma grows_bind P {A B} (m : M A) (k : A -> M B) :
  grows P m -> (forall a, grows P (k a)) -> grows P (bind m k).
Proof.
  intros Hm Hk w. unfold bind.
  destruct (Hm w) as (d1 & H1 & P1 & R1).
  destruct (m w) as [[a | e] w']; simpl in H1, R1.
  - destruct (Hk a w') as (d2 & H2 & P2 & R2). exists (d1 ++ d2).
    eapply grows_app; eassumption.
  - exists d1. simpl. auto.
Qed.

Lemma grows_try_except P {A} (m : M A) (h : exn -> M A) :
  grows P m -> (forall e, grows P (h e)) -> grows P (try_except m h).
Proof.
  intros Hm Hh w. unfold try_except.
  destruct (Hm w) as (d1 & H1 & P1 & R1).
  destruct (m w) as [[a | e] w']; simpl in H1, R1.
  - exists d1. simpl. auto.
  - destruct (Hh e w') as (d2 & H2 & P2 & R2). exists (d1 ++ d2).
    eapply grows_app; eassumption.
Qed.

Lemma grows_yield P : P StopRequested = true -> grows P (@yield sample).
Proof.
  intros HP w. unfold yield. destruct (pending_stop w) as [[|k]|]; simpl.
  - exists [StopRequested]. simpl. rewrite HP, andb_false_r. auto.
  - exists []. rewrite app_nil_r. simpl. rewrite andb_true_r. auto.
  - exists []. rewrite app_nil_r. simpl. rewrite andb_true_r. auto.
Qed.

Lemma grows_add_event P (ev : event sample) :
  P ev = true -> is_stop_request ev = false ->
  grows P (fun w => (Ok tt, add_event ev w)).
Proof.
  intros Hev Hns w. exists [ev]. simpl. rewrite Hev, Hns. simpl.
  rewrite andb_true_r. auto.
Qed.

Lemma grows_emit P (ev : event sample) :
  P StopRequested = true -> P ev = true -> is_stop_request ev = false ->
  grows P (emit ev).
Proof.
  intros HP Hev Hns. unfold emit. apply grows_bind; [now apply grows_yield |].
  intros _. now apply grows_add_event.
Qed.

Lemma grows_invoke P {A} (c : call sample) (f : filesystem -> result A * filesystem) :
  P StopRequested = true -> (forall o, P (Called c o) = true) -> grows P (invoke c f).
Proof.
  intros HP Hc. unfold invoke. apply grows_bind; [now apply grows_yield |].
  intros _ w. destruct (f (fs w)) as [r fs'].
  exists [Called c match r with Ok _ => Returned | Raise e => Raised e end].
  simpl. rewrite Hc, !andb_true_r. repeat split.
Qed.

End Simulation.

(** ** The pipeline *)

Ltac unfold_pipeline :=
  unfold process_audio, save, _apply_noise_reduction, _enhance_speech,
    load, reduce_noise, write, write_buffer, from_wav, export,
    log_and_reraise.

(** [sim] and [grows] goals follow the shape of the computation. *)
Ltac pipeline_step :=
  match goal with
  | H : forall v, sim (report ?cb v) |- sim (report ?cb _) => apply H
  | H : forall v, grows ?P (report ?cb v) |- grows ?P (report ?cb _) => apply H
  | |- sim (bind _ _) => apply sim_bind; [| intros ?]
  | |- sim (try_except _ _) => apply sim_try_except; [| intros ?]
  | |- sim (ret _) => apply sim_ret
  | |- sim (raise _) => apply sim_raise
  | |- sim (invoke _ _) => apply sim_invoke
  | |- sim (emit _) => apply sim_emit; reflexivity
  | |- sim (if ?b then _ else _) => destruct b
  | |- sim (match ?x with (_, _) => _ end) => destruct x
  | |- grows _ (bind _ _) => apply grows_bind; [| intros ?]
  | |- grows _ (try_except _ _) => apply grows_try_except; [| intros ?]
  | |- grows _ (ret _) => apply grows_ret
  | |- grows _ (raise _) => apply grows_raise
  | |- grows _ (invoke _ _) => apply grows_invoke; [assumption || reflexivity | auto]
  | |- grows _ (emit _) => apply grows_emit; reflexivity
  | |- grows _ (if ?b then _ else _) => destruct b
  | |- grows _ (match ?x with (_, _) => _ end) => destruct x
  end.

Section PipelineFacts.
Context {sample : Type}.
Variable lib : Libs sample.

Local Abbreviation World := (World sample).
Local Abbreviation M := (M sample).

Lemma sim_process_audio (task : AudioTask) (cb : option (Z -> M unit)) :
  (forall v, sim (report cb v)) -> sim (process_audio lib task cb).
Proof. intros Hcb. unfold_pipeline. repeat pipeline_step. Qed.

Lemma grows_process_audio P (task : AudioTask) (cb : option (Z -> M unit)) :
  P StopRequested = true -> (forall c o, P (Called c o) = true) ->
  (forall v, grows P (report cb v)) -> grows P (process_audio lib task cb).
Proof. intros HP Hc Hcb. unfold_pipeline. repeat pipeline_step. Qed.

(** [process_audio] returns: its outer handler turns every exception into
    [False]. *)
Lemma process_audio_returns (task : AudioTask) (cb : option (Z -> M unit)) (w : World) :
  exists b, fst (process_audio lib task cb w) = Ok b.
Proof.
  unfold process_audio, try_except.
  match goal with |- context [match ?m w with _ => _ end] => destruct (m w) as [[b | e] w'] end.
  - exists b. reflexivity.
  - exists false. reflexivity.
Qed.

Lemma sim_report_recording (record : bool) v :
  sim (report (if record then Some (@recording_callback sample) else None) v).
Proof. destruct record; simpl; [apply sim_emit; reflexivity | apply sim_ret]. Qed.

Lemma grows_report_recording P (record : bool) v :
  P StopRequested = true -> (forall p, P (Progress p) = true) ->
  grows P (report (if record then Some (@recording_callback sample) else None) v).
Proof.
  intros HP Hp. destruct record; simpl; [| apply grows_ret].
  apply grows_emit; auto.
Qed.

(** A run from any world against the run from the quiet world: the same
    result, the same files, the same visible events. *)
Lemma process_audio_transfer (task : AudioTask) (cb : option (Z -> M unit)) (w : World) :
  (forall v, sim (report cb v)) ->
  (forall v, grows (fun ev => negb (is_polled ev)) (report cb v)) ->
  exists b w' delta wq' dq,
    process_audio lib task cb w = (Ok b, w') /\
    log w' = log w ++ delta /\
    process_audio lib task cb (quiet w) = (Ok b, wq') /\
    log wq' = log w ++ dq /\
    visible delta = visible dq /\
    fs w' = fs wq' /\
    forallb (fun ev => negb (is_polled ev)) delta = true /\
    thread_is_running w' =
      thread_is_running w && negb (existsb is_stop_request delta).
Proof.
  intros Hsim Hgrows.
  pose proof (sim_process_audio task cb Hsim w (quiet w) (obs_eq_quiet w))
    as [Hr [Hfs Hvis]].
  assert (Hg : grows (fun ev => negb (is_polled ev)) (process_audio lib task cb))
    by (apply grows_process_audio; auto).
  destruct (Hg w) as (delta & Hlog & Hpol & Hrun).
  destruct (Hg (quiet w)) as (dq & Hlogq & _ & _).
  destruct (process_audio_returns task cb w) as [b Hb].
  destruct (process_audio lib task cb w) as [r w'].
  destruct (process_audio lib task cb (quiet w)) as [rq wq'].
  simpl in *. rewrite Hb in Hr. subst r rq. exists b, w', delta, wq', dq.
  repeat split; try assumption.
  rewrite Hlog, Hlogq, !visible_app in Hvis.
  apply app_inv_head in Hvis. exact Hvis.
Qed.

End PipelineFacts.

(** Evaluating a run from a quiet world: the computation is unfolded and
    every library result is split into its cases. *)
Ltac eval_pipeline H :=
  cbv beta iota zeta delta
    [process_audio save _apply_noise_reduction _enhance_speech
     load reduce_noise write write_buffer from_wav export log_and_reraise
     report recording_callback emit invoke pure_call record_call add_event
     bind ret raise try_except yield quiet
     fs log thread_is_running pending_stop] in H.

Ltac split_pipeline H :=
  repeat (eval_pipeline H;
          match type of H with
          | context [match ?x with _ => _ end] =>
              lazymatch x with
              | context [match _ with _ => _ end] => fail
              | _ => destruct x eqn:?
              end
          end).


Ltac solve_in H :=
  simpl in H; repeat (destruct H as [H | H]; [congruence |]);
  first [congruence | contradiction].

Ltac find_in := solve [simpl; repeat first [left; reflexivity | right]].

Section PipelineClaims.
Context {sample : Type}.
Variable lib : Libs sample.

Local Abbreviation World := (World sample).

(** C10: whatever the libraries do, and whether or not a recording callback
    is given, [process_audio] returns a boolean and raises nothing (the
    exceptions of the stages are instances of [Exception], which its outer
    handler catches).  It returns [False] exactly when a library call of some
    stage raised; when it returns [True] the load, the noise reduction and
    the write to the output path have returned (the enhancement stage makes
    no call); and on [False] the callback was never handed 100. *)
Theorem process_audio_never_raises (task : AudioTask) (record : bool) (w : World) :
  let progress_callback := if record then Some recording_callback else None in
  exists b w' delta,
    process_audio lib task progress_callback w = (Ok b, w') /\
    log w' = log w ++ delta /\
    (b = false <-> exists c e, In (Called c (Raised e)) delta) /\
    (b = true ->
       exists y sr,
         In (Called (librosa_load (input_path task)) Returned) delta /\
         In (Called (nr_reduce_noise
                       (mkReduceNoiseArgs y sr (slice_to y sr)
                          (reduction_strength (noise_reduction_level task))
                          true 1.5%Q)) Returned) delta /\
         ((exists y_clean,
             In (Called (sf_write (output_path task) y_clean sr) Returned) delta) \/
          exists audio_segment,
            In (Called (AudioSegment_export audio_segment (output_path task) "mp3")
                  Returned) delta)) /\
    (b = false -> ~ In (Progress 100) delta).
Proof.
  intros cb.
  destruct (process_audio_transfer lib task cb w)
    as (b & w' & delta & wq' & dq & Hrun & Hlog & Hq & Hlogq & Hvis & _).
  { intros v. apply sim_report_recording. }
  { intros v. apply grows_report_recording; reflexivity || auto. }
  exists b, w', delta. split; [exact Hrun |]. split; [exact Hlog |].
  assert (Hin : forall ev, is_stop_request ev = false ->
                           (In ev delta <-> In ev (visible dq))).
  { intros ev Hev. rewrite <- Hvis. symmetry. apply In_visible. exact Hev. }
  clear Hrun Hlog Hvis. subst cb. destruct w as [f l r p].
  destruct record; split_pipeline Hq; eval_pipeline Hq;
    injection Hq as <- <-; simpl in Hlogq; rewrite <- ?app_assoc in Hlogq;
    apply app_inv_head in Hlogq; subst dq; simpl in Hin.
  all: split; [split | split].
  all: try (intros Hb; discriminate Hb).
  all: try (intros _; reflexivity).
  all: try (intros (c & e & H); apply Hin in H; [solve_in H | reflexivity]).
  all: try (intros _; eexists _, _; apply Hin; [reflexivity | find_in]).
  all: try (intros _ Hp; apply Hin in Hp; [solve_in Hp | reflexivity]).
  all: intros _; eexists _, _;
    (split; [apply Hin; [reflexivity | find_in] |]);
    (split; [apply Hin; [reflexivity | find_in] |]);
    first [ left; eexists; apply Hin; [reflexivity | find_in]
          | right; eexists; apply Hin; [reflexivity | find_in] ].
Qed.

(** C1: on a run that returns [True], the values handed to the callback
    are 10, 30, 60, 80, 100 in this order, without the 60 when speech
    enhancement is disabled: strictly increasing integers of [0, 100] that end
    with 100, a subsequence of 10, 30, 80, 100 when the stage is disabled.
    Each value is handed over once, right before the calls of its stage. *)
Theorem progress_values_on_success (task : AudioTask) (w w' : World) :
  process_audio lib task (Some recording_callback) w = (Ok true, w') ->
  exists delta,
    log w' = log w ++ delta /\
    progress_values delta =
      (if enable_speech_enhancement task
       then [10; 30; 60; 80; 100] else [10; 30; 80; 100]) /\
    StronglySorted Z.lt (progress_values delta) /\
    Forall (fun value => 0 <= value <= 100) (progress_values delta) /\
    List.last (progress_values delta) 0 = 100 /\
    (enable_speech_enhancement task = false ->
     sublist (progress_values delta) [10; 30; 80; 100]) /\
    exists y sr save_calls,
      visible delta =
        ([ Progress 10;
           Called (librosa_load (input_path task)) Returned;
           Progress 30;
           Called (nr_reduce_noise
                     (mkReduceNoiseArgs y sr (slice_to y sr)
                        (reduction_strength (noise_reduction_level task))
                        true 1.5%Q)) Returned ]
         ++ (if enable_speech_enhancement task then [Progress 60] else [])
         ++ Progress 80 :: save_calls ++ [Progress 100]) /\
      forallb is_called save_calls = true.
Proof.
  intros Hrun0.
  destruct (process_audio_transfer lib task (Some recording_callback) w)
    as (b & w1 & delta & wq' & dq & Hrun & Hlog & Hq & Hlogq & Hvis & _).
  { intros v. exact (sim_report_recording true v). }
  { intros v. apply (grows_report_recording _ true v); [reflexivity | auto]. }
  rewrite Hrun in Hrun0.
  assert (Hb : b = true) by congruence. assert (Hw : w1 = w') by congruence.
  subst b w1. clear Hrun0.
  exists delta. split; [exact Hlog |].
  rewrite <- (progress_values_visible delta), Hvis.
  clear Hrun Hlog. destruct w as [f l r p].
  split_pipeline Hq; eval_pipeline Hq;
    try discriminate Hq; injection Hq as <-;
    simpl in Hlogq; rewrite <- ?app_assoc in Hlogq;
    apply app_inv_head in Hlogq; subst dq; simpl.
  all: split; [reflexivity |].
  all: split; [repeat constructor; lia |].
  all: split; [repeat constructor; lia |].
  all: split; [reflexivity |].
  all: split; [intros He; first [discriminate He | reflexivity] |].
  all: first [ eexists _, _, [_]; split; reflexivity
             | eexists _, _, [_; _; _]; split; reflexivity ].
Qed.

(** C4: the arguments of the one call the noise-reduction stage makes.  For
    a sample rate [0 <= sr] the noise clip is the first [sr] samples, which
    is the whole signal when it is shorter (the slice is clipped, nothing is
    indexed out of range), and the strength is 0.5, 0.7 or 0.9 by level. *)
Theorem noise_reduction_arguments (y : signal sample) (sr : Z)
    (level : NoiseReductionLevel) (w : World) :
  0 <= sr ->
  exists args o,
    visible (log (snd (_apply_noise_reduction lib y sr level w))) =
      visible (log w) ++ [Called (nr_reduce_noise args) o] /\
    nr_y args = y /\ nr_sr args = sr /\
    nr_y_noise args = List.firstn (Z.to_nat sr) y /\
    (Z.of_nat (List.length y) <= sr -> nr_y_noise args = y) /\
    (level = LIGHT -> nr_prop_decrease args = 0.5%Q) /\
    (level = MEDIUM -> nr_prop_decrease args = 0.7%Q) /\
    (level = STRONG -> nr_prop_decrease args = 0.9%Q) /\
    nr_stationary args = true /\ nr_n_std_thresh_stationary args = 1.5%Q.
Proof.
  intros Hsr.
  exists (mkReduceNoiseArgs y sr (slice_to y sr) (reduction_strength level) true 1.5%Q).
  assert (Hclip : slice_to y sr = List.firstn (Z.to_nat sr) y).
  { unfold slice_to. zcmp. reflexivity. }
  destruct (lib_reduce_noise lib
              (mkReduceNoiseArgs y sr (slice_to y sr) (reduction_strength level)
                 true 1.5%Q)) as [y_clean | e] eqn:Hcall.
  - exists Returned. split.
    + destruct w as [f l r [[|k]|]]; unfold_pipeline;
        cbv beta iota zeta delta
          [invoke pure_call record_call add_event bind try_except yield stop
           raise fs log thread_is_running pending_stop snd];
        rewrite Hcall; simpl; rewrite ?visible_app; simpl;
        rewrite ?app_nil_r; reflexivity.
    + simpl. repeat split; try (intros ->; reflexivity); [exact Hclip |].
      intros Hlen. rewrite Hclip. apply List.firstn_all2. lia.
  - exists (Raised e). split.
    + destruct w as [f l r [[|k]|]]; unfold_pipeline;
        cbv beta iota zeta delta
          [invoke pure_call record_call add_event bind try_except yield stop
           raise fs log thread_is_running pending_stop snd];
        rewrite Hcall; simpl; rewrite ?visible_app; simpl;
        rewrite ?app_nil_r; reflexivity.
    + simpl. repeat split; try (intros ->; reflexivity); [exact Hclip |].
      intros Hlen. rewrite Hclip. apply List.firstn_all2. lia.
Qed.

(** C9: [_enhance_speech] returns the buffer it was given, whatever the
    buffer and the sample rate: no library is called, nothing is raised,
    nothing else changes.  In the pipeline, enabling the stage changes
    neither the result, nor the files, nor the calls: the writer is handed
    the same samples and the same sample rate. *)
Theorem enhance_speech_is_identity (y : signal sample) (sr : Z) (w : World) :
  _enhance_speech y sr w = (Ok y, w) /\
  forall task : AudioTask,
    process_audio lib (set_enable_speech_enhancement task true) None w =
    process_audio lib (set_enable_speech_enhancement task false) None w.
Proof.
  split; [reflexivity |]. intros task. reflexivity.
Qed.


(** Case analysis on the membership of an event in an explicit log. *)
Ltac case_in H tac :=
  simpl in H;
  repeat (destruct H as [H | H]; [try (inversion H; subst; clear H; tac) |]);
  try contradiction.

Ltac rewrite_writer :=
  match goal with
  | H : lib_write _ _ _ _ _ = _ |- _ => rewrite H
  | H : lib_export _ _ _ _ _ = _ |- _ => rewrite H
  end.

(** C6, as the code has it: the encode stage hands [output_path] itself to
    the writer ([sf.write] or [AudioSegment.export]); there is no temporary
    file, no rename and no clean-up.  When the writer raises, [process_audio]
    returns [False] and the files are exactly as the failing call left
    them. *)
Theorem failed_encode_leaves_the_files_of_the_writer
    (task : AudioTask) (record : bool) (w : World) :
  let progress_callback := if record then Some recording_callback else None in
  exists b w' delta,
    process_audio lib task progress_callback w = (Ok b, w') /\
    log w' = log w ++ delta /\
    (forall file data samplerate e,
        In (Called (sf_write file data samplerate) (Raised e)) delta ->
        b = false /\ file = output_path task /\
        fs w' = snd (lib_write lib (output_path task) data samplerate (fs w))) /\
    (forall audio_segment out_f format e,
        In (Called (AudioSegment_export audio_segment out_f format) (Raised e)) delta ->
        b = false /\ out_f = output_path task /\ format = "mp3" /\
        fs w' = snd (lib_export lib audio_segment (output_path task) "mp3" (fs w))).
Proof.
  intros cb.
  destruct (process_audio_transfer lib task cb w)
    as (b & w' & delta & wq' & dq & Hrun & Hlog & Hq & Hlogq & Hvis & Hfs & _).
  { intros v. apply sim_report_recording. }
  { intros v. apply grows_report_recording; [reflexivity | auto]. }
  exists b, w', delta. split; [exact Hrun |]. split; [exact Hlog |].
  assert (Hin : forall ev, is_stop_request ev = false ->
                           (In ev delta <-> In ev (visible dq))).
  { intros ev Hev. rewrite <- Hvis. symmetry. apply In_visible. exact Hev. }
  clear Hrun Hlog Hvis. subst cb. destruct w as [f l r p].
  destruct record; split_pipeline Hq; eval_pipeline Hq;
    injection Hq as <- <-; simpl in Hlogq; rewrite <- ?app_assoc in Hlogq;
    apply app_inv_head in Hlogq; subst dq; simpl in Hin; simpl in Hfs.
  all: split; intros ? ? ? ? H; apply Hin in H; try reflexivity.
  all: case_in H ltac:(cbn [fs]; rewrite_writer; repeat split).
Qed.

(** C7, at an input for which it fails.  For ["talk.m4a"] the output format
    is ["m4a"], and the save stage makes one call: [sf.write] on the output
    path with the samples, without a WAV buffer and without a transcoder.
    For ["talk.mp3"] the sibling branch writes the samples to a WAV buffer
    first. *)
Theorem save_m4a_hands_the_samples_to_the_raw_writer
    (y : signal sample) (sr : Z) (w : World) :
  output_format (default_task "talk.m4a") = "m4a" /\
  (exists o,
     visible (log (snd (save lib (default_task "talk.m4a") y sr w))) =
       visible (log w) ++ [Called (sf_write "talk_cleaned.m4a" y sr) o]) /\
  (exists o rest,
     visible (log (snd (save lib (default_task "talk.mp3") y sr w))) =
       visible (log w) ++ Called (sf_write_buffer y sr "WAV") o :: rest).
Proof.
  split; [reflexivity |].
  assert (Hm4a : String.eqb (PyStr.lower (output_format (default_task "talk.m4a"))) "mp3"
                 = false) by reflexivity.
  assert (Hmp3 : String.eqb (PyStr.lower (output_format (default_task "talk.mp3"))) "mp3"
                 = true) by reflexivity.
  assert (Hout : output_path (default_task "talk.m4a") = "talk_cleaned.m4a")
    by reflexivity.
  split.
  - unfold save. rewrite Hm4a, Hout.
    destruct (lib_write lib "talk_cleaned.m4a" y sr (fs w)) as [r0 f0] eqn:Hcall.
    exists (match r0 with Ok _ => Returned | Raise e => Raised e end).
    destruct w as [f l r [[|k]|]]; simpl in Hcall; unfold_pipeline;
      cbv beta iota zeta delta
        [invoke pure_call record_call add_event bind try_except yield stop
         raise fs log thread_is_running pending_stop snd];
      rewrite Hcall; destruct r0; simpl; rewrite ?visible_app; simpl;
      rewrite ?app_nil_r; reflexivity.
  - unfold save. rewrite Hmp3.
    destruct (lib_write_buffer lib y sr "WAV") as [wav_buffer | e] eqn:Hcall.
    + destruct w as [f l r [[|k]|]]; unfold_pipeline;
        cbv beta iota zeta delta
          [invoke pure_call record_call add_event bind try_except yield stop
           raise fs log thread_is_running pending_stop snd];
        rewrite Hcall; cbv beta iota zeta;
        repeat match goal with
          | |- context [match ?x with _ => _ end] =>
              lazymatch x with
              | context [match _ with _ => _ end] => fail
              | _ => destruct x
              end
          end;
        simpl; rewrite ?visible_app; simpl; rewrite <- ?app_assoc; simpl;
        eexists _, _; reflexivity.
    + exists (Raised e), [].
      destruct w as [f l r [[|k]|]]; unfold_pipeline;
        cbv beta iota zeta delta
          [invoke pure_call record_call add_event bind try_except yield stop
           raise fs log thread_is_running pending_stop snd];
        rewrite Hcall; simpl; rewrite ?visible_app; simpl;
        rewrite ?app_nil_r; reflexivity.
Qed.


Lemma bind_set_is_running {A} (b : bool) (k : unit -> M sample A) (w : World) :
  bind (set_is_running b) k w =
    k tt (mkWorld (fs w) (log w) b (pending_stop w)).
Proof. reflexivity. Qed.

Lemma try_except_bind_ok {A B} (m : M sample A) (k : A -> M sample B)
    (h : exn -> M sample B) (w w' : World) (a : A) :
  m w = (Ok a, w') -> try_except (bind m k) h w = try_except (k a) h w'.
Proof. intros H. unfold try_except, bind. rewrite H. reflexivity. Qed.

(** What [run] does once [process_audio] has returned: one read of the
    flag, then one [task_completed] signal; no library call, no change to
    the files. *)
Lemma run_after_processing (task : AudioTask) (success : bool) (w : World) :
  exists w' pre is_running post,
    try_except
      (bind poll_is_running (fun is_running =>
         if negb is_running then
           emit (Emitted (task_completed (name task) false "Task cancelled"))
         else if success then
           emit (Emitted (task_completed (name task) true
                            "Processing completed successfully"))
         else
           emit (Emitted (task_completed (name task) false "Processing failed"))))
      (fun e =>
         emit (Emitted (task_completed (name task) false ("Error: " +:+ exn_str e))))
      w = (Ok tt, w') /\
    log w' = log w ++ pre ++ Polled is_running :: post /\
    fs w' = fs w /\
    is_running = thread_is_running w && negb (existsb is_stop_request pre) /\
    calls pre = [] /\ calls post = [] /\
    forallb (fun ev => negb (is_polled ev)) (pre ++ post) = true /\
    (is_running = false ->
     signals post = [task_completed (name task) false "Task cancelled"]) /\
    (is_running = true ->
     signals post =
       [task_completed (name task) success
          (if success then "Processing completed successfully"
           else "Processing failed")]).
Proof.
  destruct w as [f l r p].
  destruct p as [[|[|k]]|], r, success;
    cbv beta iota zeta delta
      [poll_is_running emit add_event bind try_except yield stop negb
       fs log thread_is_running pending_stop];
    rewrite <- ?app_assoc; cbn [app];
    first
      [ solve [eexists _, [], _, [_]; repeat split; try discriminate]
      | solve [eexists _, [], _, [_; _]; repeat split; try discriminate]
      | solve [eexists _, [StopRequested], _, [_]; repeat split; try discriminate] ].
Qed.

(** C2, as the code has it.  [run] reads the flag once, after
    [process_audio] has returned and so after every library call.  A [stop]
    executed before that read makes the terminal signal
    [(False, "Task cancelled")]; it changes neither the library calls that
    are made nor the files that are written, which are those of the run
    without any [stop]. *)
Theorem stop_is_read_once_after_the_pipeline (task : AudioTask) (w : World) :
  exists w' wq' before is_running after,
    run lib task w = (Ok tt, w') /\
    run lib task (quiet w) = (Ok tt, wq') /\
    log w' = log w ++ before ++ Polled is_running :: after /\
    forallb (fun ev => negb (is_polled ev)) (before ++ after) = true /\
    calls after = [] /\
    is_running = negb (existsb is_stop_request before) /\
    (is_running = false ->
     signals after = [task_completed (name task) false "Task cancelled"]) /\
    calls (log w') = calls (log wq') /\
    fs w' = fs wq'.
Proof.
  set (cb := Some (fun p : Z => emit (Emitted (progress_updated (name task) p)))
             : option (Z -> M sample unit)).
  destruct w as [f l r p].
  destruct (process_audio_transfer lib task cb (mkWorld f l true p))
    as (b & w2 & delta & wq2 & dq & Hrun & Hlog & Hq & Hlogq & Hvis & Hfs & Hpol & Hflag).
  { intros v. apply sim_emit. reflexivity. }
  { intros v. apply grows_emit; reflexivity. }
  destruct (run_after_processing task b w2)
    as (w3 & pre & flag & post & Hfin & Hlog3 & Hfs3 & Hflag3 & Hcpre & Hcpost & Hpol3 & Hcancel & _).
  destruct (run_after_processing task b wq2)
    as (wq3 & preq & flagq & postq & Hfinq & Hlogq3 & Hfsq3 & _ & Hcpreq & Hcpostq & _).
  exists (mkWorld (fs w3) (log w3) false (pending_stop w3)),
         (mkWorld (fs wq3) (log wq3) false (pending_stop wq3)),
         (delta ++ pre), flag, post.
  split; [| split].
  - unfold run. rewrite bind_set_is_running. unfold try_finally.
    erewrite try_except_bind_ok by exact Hrun. cbv beta.
    rewrite Hfin. reflexivity.
  - unfold run, quiet. rewrite bind_set_is_running. unfold try_finally.
    erewrite try_except_bind_ok by exact Hq. cbv beta.
    rewrite Hfinq. reflexivity.
  - cbn [fs log].
    assert (Hcd : calls delta = calls dq).
    { rewrite <- (calls_visible delta), Hvis. apply calls_visible. }
    repeat split.
    + rewrite Hlog3, Hlog. cbn [log]. rewrite <- !app_assoc. reflexivity.
    + rewrite <- app_assoc, forallb_app, Hpol. exact Hpol3.
    + exact Hcpost.
    + rewrite Hflag3, Hflag, existsb_app, negb_orb. reflexivity.
    + exact Hcancel.
    + rewrite Hlog3, Hlogq3, Hlog, Hlogq. cbn [log].
      rewrite !calls_app. cbn [calls]. rewrite Hcpre, Hcpost, Hcpreq, Hcpostq, Hcd.
      reflexivity.
    + rewrite Hfs3, Hfsq3. exact Hfs.
Qed.


End PipelineClaims.

(** ** The claims on concrete runs *)

(** C1 on a run that succeeds, with speech enhancement disabled: the
    recorded values are 10, 30, 80, 100. *)
Lemma progress_values_on_success_witness :
  let task := set_enable_speech_enhancement (default_task "lecture1.wav") false in
  exists w' delta,
    process_audio working_libs task (Some recording_callback) empty_world = (Ok true, w') /\
    log w' = log empty_world ++ delta /\
    progress_values delta = [10; 30; 80; 100].
Proof.
  intros task.
  destruct (process_audio working_libs task (Some recording_callback) empty_world)
    as [r w'] eqn:Hrun.
  assert (Hr : r = Ok true) by (vm_compute in Hrun; congruence).
  subst r. exists w'.
  destruct (progress_values_on_success working_libs task empty_world w' Hrun)
    as (delta & Hlog & Hvalues & _).
  exists delta. repeat split; assumption.
Defined.

(** C4 on a three-sample signal at 2 Hz ([0 <= 2]): the clip is the first two
    samples. *)
Lemma noise_reduction_arguments_witness :
  0 <= 2 /\
  exists args o,
    visible (log (snd (_apply_noise_reduction working_libs [1#10; 2#10; 3#10]%Q 2
                         MEDIUM empty_world))) =
      visible (log empty_world) ++ [Called (nr_reduce_noise args) o] /\
    nr_y_noise args = [1#10; 2#10]%Q /\
    nr_prop_decrease args = 0.7%Q.
Proof.
  split; [lia |].
  destruct (noise_reduction_arguments working_libs [1#10; 2#10; 3#10]%Q 2 MEDIUM
              empty_world ltac:(lia))
    as (args & o & Hlog & _ & _ & Hclip & _ & _ & Hmedium & _).
  exists args, o. repeat split; [exact Hlog | exact Hclip | exact (Hmedium eq_refl)].
Defined.

(** C2, where it fails.  The GUI thread stops the task while it is Running,
    right after the load stage.  The noise reduction and the save stage run
    all the same, the flag is read only after them, and the terminal signal
    is "Task cancelled" with a new file at the output path.  A [stop] that
    arrives after the flag was read, still before the terminal signal, ends
    in success. *)
Lemma stop_after_load_still_writes_the_file :
  let task := default_task "lecture1.wav" in
  let w' := snd (run working_libs task (stop_at 2 empty_world)) in
  let w'' := snd (run working_libs task (stop_at 9 empty_world)) in
  log w' =
    [ Emitted (progress_updated "lecture1" 10);
      Called (librosa_load "lecture1.wav") Returned;
      StopRequested;
      Emitted (progress_updated "lecture1" 30);
      Called (nr_reduce_noise
                (mkReduceNoiseArgs [1#10; 2#10; 3#10]%Q 2 [1#10; 2#10]%Q 0.7%Q
                   true 1.5%Q)) Returned;
      Emitted (progress_updated "lecture1" 60);
      Emitted (progress_updated "lecture1" 80);
      Called (sf_write "lecture1_cleaned.wav" [1#10; 2#10; 3#10]%Q 2) Returned;
      Emitted (progress_updated "lecture1" 100);
      Polled false;
      Emitted (task_completed "lecture1" false "Task cancelled") ] /\
  output_path task = "lecture1_cleaned.wav" /\
  fs (stop_at 2 empty_world) !! "lecture1_cleaned.wav" = None /\
  fs w' !! "lecture1_cleaned.wav" = Some riff /\
  existsb is_stop_request (log w'') = true /\
  signals (log w'') =
    [ progress_updated "lecture1" 10; progress_updated "lecture1" 30;
      progress_updated "lecture1" 60; progress_updated "lecture1" 80;
      progress_updated "lecture1" 100;
      task_completed "lecture1" true "Processing completed successfully" ].
Proof.
  intros task w' w''.
  split; [vm_compute; reflexivity |]. split; [vm_compute; reflexivity |].
  split; [reflexivity |]. split; [vm_compute; reflexivity |].
  split; vm_compute; reflexivity.
Qed.

(** C6, where it fails.  The writer creates the file, writes its first byte
    and raises: [process_audio] returns [False] and the one-byte file stays at
    the output path, where there was no file before. *)
Lemma failed_encode_leaves_a_partial_file :
  let task := default_task "lecture1.wav" in
  let run := process_audio failing_writer_libs task None empty_world in
  fst run = Ok false /\
  In (Called (sf_write (output_path task) [1#10; 2#10; 3#10]%Q 2)
        (Raised (Exception "No space left on device")))
     (log (snd run)) /\
  fs empty_world !! output_path task = None /\
  fs (snd run) !! output_path task = Some [Byte.x52] /\
  fs (snd (process_audio working_libs task None empty_world)) !! output_path task
    = Some riff.
Proof.
  intros task run.
  split; [vm_compute; reflexivity |].
  split; [vm_compute; tauto |].
  split; [reflexivity |].
  split; vm_compute; reflexivity.
Qed.

(** ** The output format *)

(** C8: the output format is read off the lower-cased suffix of the input
    path: each of the six recognised extensions gives the format of the same
    name, and any other suffix gives ["wav"]. *)
Theorem output_format_table (t : AudioTask) :
  let ext := PyStr.lower (Pathlib.suffix (Pathlib.Path (input_path t))) in
  (forall fmt, In fmt ["wav"; "mp3"; "m4a"; "aac"; "ogg"; "flac"] ->
               ext = "." +:+ fmt -> output_format t = fmt) /\
  ((forall fmt, In fmt ["wav"; "mp3"; "m4a"; "aac"; "ogg"; "flac"] ->
                ext <> "." +:+ fmt) ->
   output_format t = "wav").
Proof.
  intros ext. unfold output_format. fold ext. split.
  - intros fmt Hin Hext. rewrite Hext. simpl in Hin.
    repeat (destruct Hin as [<- | Hin]; [reflexivity |]). contradiction.
  - intros Hnone. destruct (format_map !! ext) as [fmt |] eqn:Hlookup; [| reflexivity].
    exfalso. apply elem_of_list_to_map_2 in Hlookup.
    apply list_elem_of_In in Hlookup. simpl in Hlookup.
    repeat (destruct Hlookup as [Heq | Hlookup];
            [injection Heq as <- <-; eapply Hnone; [| reflexivity]; simpl; tauto |]).
    contradiction.
Qed.

Lemma output_format_table_witness :
  output_format (default_task "/lectures/Talk.MP3") = "mp3" /\
  output_format (default_task "/lectures/talk.wma") = "wav".
Proof.
  split.
  - apply (proj1 (output_format_table (default_task "/lectures/Talk.MP3")) "mp3").
    + simpl. tauto.
    + reflexivity.
  - apply (proj2 (output_format_table (default_task "/lectures/talk.wma"))).
    intros fmt Hin. simpl in Hin.
    repeat (destruct Hin as [<- | Hin]; [discriminate |]). contradiction.
Defined.

(** ** The task registry *)

(** C5, where it fails.  The registry holds the task "lecture1", idle.  The
    dialog is accepted with another file of the same stem: [add_task] raises
    nothing, and the entry of "lecture1" now is the new task. *)
Lemma add_task_replaces_a_registered_name :
  let self := add_task Accepted (default_configuration "/a/lecture1.wav")
                (mkMainWindow ∅ ∅ []) in
  let self' := add_task Accepted (default_configuration "/b/lecture1.mp3") self in
  fst <$> tasks self !! "lecture1" = Some (default_task "/a/lecture1.wav") /\
  is_idle self "lecture1" /\
  fst <$> tasks self' !! "lecture1" = Some (default_task "/b/lecture1.mp3") /\
  self' <> self.
Proof.
  intros self self'.
  assert (H1 : fst <$> tasks self !! "lecture1" = Some (default_task "/a/lecture1.wav"))
    by (vm_compute; reflexivity).
  assert (H2 : fst <$> tasks self' !! "lecture1" = Some (default_task "/b/lecture1.mp3"))
    by (vm_compute; reflexivity).
  split; [exact H1 |]. split; [reflexivity |]. split; [exact H2 |].
  intros Heq. rewrite Heq, H1 in H2. discriminate H2.
Qed.

(** C5, as the code has it.  When the dialog is accepted with a non-empty
    input path, [add_task] binds the name of the task (the stem of the input
    path) to the new task and its new item, whatever was registered under
    that name, appends the item to the layout and leaves the other entries
    and the threads as they were; so a name that had no entry is idle
    afterwards.  Nothing is reported for a name that was registered. *)
Theorem add_task_registers_the_task (self : MainWindow) (config : Configuration) :
  cfg_input_path config <> "" ->
  let task :=
    AudioTask_init (cfg_input_path config) ""
      (cfg_noise_reduction_level config) (cfg_enable_speech_enhancement config)
      (cfg_speech_enhancement_level config) (cfg_voice_clarity_boost config)
      (cfg_background_noise_level config) in
  let self' := add_task Accepted config self in
  name task = Pathlib.stem (Pathlib.Path (cfg_input_path config)) /\
  tasks self' !! name task = Some (task, TaskItem_init (name task)) /\
  (forall other, other <> name task -> tasks self' !! other = tasks self !! other) /\
  processing_threads self' = processing_threads self /\
  task_layout self' = task_layout self ++ [TaskItem_init (name task)] /\
  (registry_invariant self -> tasks self !! name task = None ->
   is_idle self' (name task)).
Proof.
  intros Hpath task self'.
  assert (Hne : String.eqb (cfg_input_path config) "" = false)
    by (apply String.eqb_neq; exact Hpath).
  unfold self', add_task. rewrite Hne. cbn [negb]. fold task. cbn [tasks processing_threads task_layout].
  split; [reflexivity |]. split; [apply lookup_insert_eq |].
  split; [intros other Hother; apply lookup_insert_ne; congruence |].
  split; [reflexivity |]. split; [reflexivity |].
  intros Hinv Hfresh. unfold is_idle. cbn [processing_threads].
  apply Hinv. exact Hfresh.
Qed.

Lemma add_task_registers_the_task_witness :
  let self := mkMainWindow ∅ ∅ [] in
  let self' := add_task Accepted (default_configuration "/a/lecture1.wav") self in
  "/a/lecture1.wav" <> "" /\
  tasks self' !! "lecture1" =
    Some (default_task "/a/lecture1.wav", TaskItem_init "lecture1") /\
  is_idle self' "lecture1".
Proof.
  intros self self'.
  assert (Hpath : cfg_input_path (default_configuration "/a/lecture1.wav") <> "")
    by discriminate.
  destruct (add_task_registers_the_task self (default_configuration "/a/lecture1.wav") Hpath)
    as (_ & Hlookup & _ & _ & _ & Hidle).
  split; [discriminate |]. split; [exact Hlookup |].
  apply Hidle; [intros n _ | ]; reflexivity.
Defined.

(** A rejected dialog, or an accepted one without a file, changes nothing. *)
Lemma add_task_without_input (self : MainWindow) (config : Configuration) :
  add_task Rejected config self = self /\
  (cfg_input_path config = "" -> add_task Accepted config self = self).
Proof.
  split; [reflexivity |]. intros H. unfold add_task. rewrite H. reflexivity.
Qed.

(* ===================================================================== *)
(** * Part III: further properties of the code                            *)
(* ===================================================================== *)

(** ** The task descriptor *)

Module MoreTaskFacts.
Import PyStr PyStrFacts PathlibFacts TaskFacts.
Import Pathlib (sep, dot, mkPath, root, tail, Path, str, parent, joinpath,
                suffix, stem, keep_component, good_component, wf).

Lemma append_inv_tail (a b c : string) : a +:+ c = b +:+ c -> a = b.
Proof.
  intros H.
  assert (Hlen : String.length a = String.length b).
  { apply (f_equal String.length) in H. rewrite !length_append in H. lia. }
  rewrite <- (take_app_length a c), H, Hlen. apply take_app_length.
Qed.

Lemma joinpath_cleaned_name (p : Pathlib.PurePath) :
  wf p ->
  joinpath (parent p) (cleaned_name p) =
    mkPath (root p) (List.removelast (tail p) ++ [cleaned_name p]).
Proof.
  intros Hwf. unfold joinpath.
  rewrite (Path_component _ (cleaned_name_good p Hwf)). reflexivity.
Qed.

Lemma wf_output (p : Pathlib.PurePath) :
  wf p -> wf (mkPath (root p) (List.removelast (tail p) ++ [cleaned_name p])).
Proof.
  intros Hwf. pose proof (cleaned_name_good p Hwf) as Hc.
  destruct Hwf as [Hroot Hall]. split; [exact Hroot |].
  simpl. apply Forall_app. split.
  - apply Forall_removelast. exact Hall.
  - constructor; [exact Hc | constructor].
Qed.

(** Two lists of good components with the same front and the same last
    element are the same list. *)
Lemma tail_from_front_and_last (l1 l2 : list string) :
  Forall good_component l1 -> Forall good_component l2 ->
  List.removelast l1 = List.removelast l2 ->
  List.last l1 "" = List.last l2 "" -> l1 = l2.
Proof.
  intros H1 H2 Hfront Hlast.
  assert (Hbad : ~ good_component "") by (intros [Hk _]; discriminate Hk).
  assert (Hgood : forall l, Forall good_component l -> l <> [] ->
                            good_component (List.last l "")).
  { intros l Hl Hne. destruct (last_good l Hl) as [Hempty | Hg]; [| exact Hg].
    exfalso. destruct (List.exists_last Hne) as (front & x & ->).
    rewrite List.last_last in Hempty. subst x.
    apply Forall_app in Hl. destruct Hl as [_ Hl]. inversion Hl; subst. auto. }
  destruct l1 as [|x1 l1], l2 as [|x2 l2]; [reflexivity | | |].
  - exfalso. apply Hbad. change "" with (List.last (@nil string) "").
    rewrite Hlast. apply Hgood; [exact H2 | discriminate].
  - exfalso. apply Hbad. change "" with (List.last (@nil string) "").
    rewrite <- Hlast. apply Hgood; [exact H1 | discriminate].
  - rewrite (List.app_removelast_last "" (l := x1 :: l1)) by discriminate.
    rewrite (List.app_removelast_last "" (l := x2 :: l2)) by discriminate.
    rewrite Hfront, Hlast. reflexivity.
Qed.

End MoreTaskFacts.

(** X1: whatever the input path, the output format is one of the six formats
    of the table. *)
Theorem output_format_in_table (t : AudioTask) :
  In (output_format t) ["wav"; "mp3"; "m4a"; "aac"; "ogg"; "flac"].
Proof.
  unfold output_format.
  destruct (format_map !! _) as [fmt |] eqn:Hlookup; [| simpl; tauto].
  apply elem_of_list_to_map_2 in Hlookup. apply list_elem_of_In in Hlookup.
  simpl in Hlookup.
  repeat (destruct Hlookup as [Heq | Hlookup];
          [injection Heq as _ <-; simpl; tauto |]).
  contradiction.
Qed.

(** X2: the output path is printed in normal form: parsing it and printing
    it again gives the same string. *)
Theorem output_path_is_normal (t : AudioTask) :
  Pathlib.str (Pathlib.Path (output_path t)) = output_path t.
Proof.
  pose proof (PathlibFacts.Path_wf (input_path t)) as Hwf.
  unfold output_path.
  rewrite (MoreTaskFacts.joinpath_cleaned_name _ Hwf).
  rewrite PathlibFacts.Path_str by (apply MoreTaskFacts.wf_output; exact Hwf).
  reflexivity.
Qed.

(** X3: tasks whose input files differ never share an output file.  For two
    inputs whose file names do not end in a dot, equal output paths force
    the inputs to be the same path. *)
Theorem output_path_injective (t1 t2 : AudioTask) :
  PyStr.endswith Pathlib.dot (Pathlib.name (Pathlib.Path (input_path t1))) = false ->
  PyStr.endswith Pathlib.dot (Pathlib.name (Pathlib.Path (input_path t2))) = false ->
  output_path t1 = output_path t2 ->
  Pathlib.Path (input_path t1) = Pathlib.Path (input_path t2).
Proof.
  intros Hdot1 Hdot2 Hout.
  pose proof (PathlibFacts.Path_wf (input_path t1)) as Hwf1.
  pose proof (PathlibFacts.Path_wf (input_path t2)) as Hwf2.
  pose proof (TaskFacts.Path_output_path t1) as Ho1.
  pose proof (TaskFacts.Path_output_path t2) as Ho2.
  cbv zeta in Ho1, Ho2. rewrite Hout, Ho2 in Ho1.
  set (p1 := Pathlib.Path (input_path t1)) in *.
  set (p2 := Pathlib.Path (input_path t2)) in *.
  destruct (TaskFacts.split_cleaned_name p1 Hdot1) as [Hstem1 Hsuf1].
  destruct (TaskFacts.split_cleaned_name p2 Hdot2) as [Hstem2 Hsuf2].
  rewrite Ho1 in Hstem2, Hsuf2.
  injection Ho1 as Hroot Htail.
  apply List.app_inj_tail in Htail. destruct Htail as [Hfront _].
  assert (Hstem : Pathlib.stem p1 = Pathlib.stem p2).
  { apply MoreTaskFacts.append_inv_tail with (c := "_cleaned"). congruence. }
  assert (Hname : Pathlib.name p1 = Pathlib.name p2).
  { rewrite <- (TaskFacts.stem_suffix_name p1), <- (TaskFacts.stem_suffix_name p2).
    congruence. }
  destruct p1 as [r1 l1], p2 as [r2 l2]. simpl in *. f_equal; [congruence |].
  apply MoreTaskFacts.tail_from_front_and_last;
    [exact (proj2 Hwf1) | exact (proj2 Hwf2) | congruence | exact Hname].
Qed.

Lemma output_path_injective_witness :
  let t1 := default_task "/a/lecture1.wav" in
  let t2 := default_task "/a//./lecture1.wav" in
  output_path t1 = output_path t2 /\
  Pathlib.Path (input_path t1) = Pathlib.Path (input_path t2).
Proof.
  intros t1 t2. split; [reflexivity |].
  apply (output_path_injective t1 t2); reflexivity.
Defined.

(** X4: the extension of the output file and the output format can disagree.
    For an input whose lower-cased suffix is not in the table (and whose file
    name does not end in a dot) the format is ["wav"], yet the output path
    keeps the suffix of the input. *)
Theorem unrecognised_suffix_is_kept (t : AudioTask) :
  let p := Pathlib.Path (input_path t) in
  format_map !! PyStr.lower (Pathlib.suffix p) = None ->
  PyStr.endswith Pathlib.dot (Pathlib.name p) = false ->
  output_format t = "wav" /\
  Pathlib.suffix (Pathlib.Path (output_path t)) = Pathlib.suffix p.
Proof.
  intros p Hnone Hdot. split.
  - unfold output_format. fold p. rewrite Hnone. reflexivity.
  - rewrite TaskFacts.Path_output_path. fold p.
    apply TaskFacts.split_cleaned_name. exact Hdot.
Qed.

Lemma unrecognised_suffix_is_kept_witness :
  let t := default_task "/lectures/talk.wma" in
  output_format t = "wav" /\
  Pathlib.suffix (Pathlib.Path (output_path t)) = ".wma".
Proof.
  intros t. apply (unrecognised_suffix_is_kept t); reflexivity.
Defined.

(** ** The enumerations and the dialog *)

Lemma NoiseReductionLevel_round_trip (level : NoiseReductionLevel) (text : string) :
  NoiseReductionLevel_of_value text = Ok level <->
  text = NoiseReductionLevel_value level.
Proof.
  unfold NoiseReductionLevel_of_value. split.
  - repeat match goal with
             | |- context [String.eqb text ?v] =>
                 destruct (String.eqb_spec text v) as [-> | _];
                 [intros H; injection H as <-; reflexivity |]
             end.
    discriminate.
  - intros ->. destruct level; reflexivity.
Qed.

Lemma SpeechEnhancementLevel_round_trip (level : SpeechEnhancementLevel) (text : string) :
  SpeechEnhancementLevel_of_value text = Ok level <->
  text = SpeechEnhancementLevel_value level.
Proof.
  unfold SpeechEnhancementLevel_of_value. split.
  - repeat match goal with
             | |- context [String.eqb text ?v] =>
                 destruct (String.eqb_spec text v) as [-> | _];
                 [intros H; injection H as <-; reflexivity |]
             end.
    discriminate.
  - intros ->. destruct level; reflexivity.
Qed.

Lemma BackgroundNoiseLevel_round_trip (level : BackgroundNoiseLevel) (text : string) :
  BackgroundNoiseLevel_of_value text = Ok level <->
  text = BackgroundNoiseLevel_value level.
Proof.
  unfold BackgroundNoiseLevel_of_value. split.
  - repeat match goal with
             | |- context [String.eqb text ?v] =>
                 destruct (String.eqb_spec text v) as [-> | _];
                 [intros H; injection H as <-; reflexivity |]
             end.
    discriminate.
  - intros ->. destruct level; reflexivity.
Qed.

(** X5: [get_configuration] returns a configuration exactly when the three
    combo boxes show values of their enumerations; the configuration then
    carries the file path and the check boxes as they are, and its levels
    print back to the texts shown.  Any other text raises. *)
Theorem get_configuration_round_trip (self : TaskDialog) (config : Configuration) :
  get_configuration self = Ok config <->
  cfg_input_path config = file_path_text self /\
  cfg_enable_speech_enhancement config = speech_check_checked self /\
  cfg_voice_clarity_boost config = clarity_check_checked self /\
  NoiseReductionLevel_value (cfg_noise_reduction_level config) = noise_combo_text self /\
  SpeechEnhancementLevel_value (cfg_speech_enhancement_level config)
    = enhancement_combo_text self /\
  BackgroundNoiseLevel_value (cfg_background_noise_level config)
    = noise_suppression_combo_text self.
Proof.
  unfold get_configuration. split.
  - destruct (NoiseReductionLevel_of_value _) as [nl | e] eqn:Hn; [| discriminate].
    destruct (SpeechEnhancementLevel_of_value _) as [sl | e] eqn:Hs; [| discriminate].
    destruct (BackgroundNoiseLevel_of_value _) as [bl | e] eqn:Hb; [| discriminate].
    intros H. injection H as <-. simpl.
    apply NoiseReductionLevel_round_trip in Hn.
    apply SpeechEnhancementLevel_round_trip in Hs.
    apply BackgroundNoiseLevel_round_trip in Hb.
    repeat split; try reflexivity; symmetry; assumption.
  - destruct config as [ip nl es sl vc bl]. simpl.
    intros (-> & -> & -> & Hn & Hs & Hb).
    symmetry in Hn, Hs, Hb.
    apply NoiseReductionLevel_round_trip in Hn.
    apply SpeechEnhancementLevel_round_trip in Hs.
    apply BackgroundNoiseLevel_round_trip in Hb.
    rewrite Hn, Hs, Hb. reflexivity.
Qed.

(** ** The batch path *)

(** Evaluating the goal: the computations are unfolded and every result
    that the goal inspects is split into its cases. *)
Ltac eval_goal :=
  cbv beta iota zeta delta
    [process_audio _process_task save _apply_noise_reduction _enhance_speech
     load reduce_noise write write_buffer from_wav export log_and_reraise
     report recording_callback emit invoke pure_call record_call add_event
     bind ret raise try_except yield stop quiet
     fs log thread_is_running pending_stop fst snd].

Ltac split_goal :=
  repeat (eval_goal;
          match goal with
          | |- context [match ?x with _ => _ end] =>
              lazymatch x with
              | context [match _ with _ => _ end] => fail
              | _ => destruct x eqn:?
              end
          end).

Section BatchFacts.
Context {sample : Type}.
Variable lib : Libs sample.

Local Abbreviation World := (World sample).

(** X6: [_process_task] raises nothing, whatever the libraries do, and its
    library calls are the load, then the noise reduction, then one
    [sf.write] on the output path, each made only if the one before
    returned.  It never writes to a buffer and never transcodes, for no
    output format. *)
Theorem process_task_calls (task : AudioTask) (w : World) :
  exists w' delta,
    _process_task lib task w = (Ok tt, w') /\
    log w' = log w ++ delta /\
    (calls delta = [librosa_load (input_path task)] \/
     (exists args,
        calls delta = [librosa_load (input_path task); nr_reduce_noise args]) \/
     (exists args y_clean sr,
        calls delta = [librosa_load (input_path task); nr_reduce_noise args;
                       sf_write (output_path task) y_clean sr])).
Proof.
  destruct w as [f l r p].
  split_goal; eval_goal;
    repeat match goal with x : unit |- _ => destruct x end;
    eexists _, _; (split; [reflexivity |]);
    cbn [log]; rewrite <- ?app_assoc; (split; [reflexivity |]);
    cbn [app calls]; eauto 6.
Qed.

Lemma process_task_returns (task : AudioTask) (w : World) :
  fst (_process_task lib task w) = Ok tt.
Proof.
  destruct (process_task_calls task w) as (w' & delta & Hrun & _).
  rewrite Hrun. reflexivity.
Qed.

(** X7: for every output format other than mp3, [_process_task] does to the
    world what [process_audio] does without a callback: the same calls in
    the same order, the same files. *)
Theorem process_task_agrees_with_process_audio (task : AudioTask) (w : World) :
  String.eqb (PyStr.lower (output_format task)) "mp3" = false ->
  snd (_process_task lib task w) = snd (process_audio lib task None w).
Proof.
  intros Hfmt. destruct w as [f l r p].
  unfold process_audio, save. rewrite Hfmt.
  split_goal; eval_goal; reflexivity.
Qed.

End BatchFacts.

Lemma process_task_agrees_with_process_audio_witness :
  let task := default_task "lecture1.wav" in
  snd (_process_task working_libs task empty_world) =
  snd (process_audio working_libs task None empty_world).
Proof.
  intros task.
  apply (process_task_agrees_with_process_audio working_libs task empty_world).
  reflexivity.
Defined.

(** ** More on [process_audio] *)

(** The cases of an event that is a member of an explicit log. *)
Ltac in_cases H tac :=
  simpl in H;
  repeat (destruct H as [H | H]; [try (inversion H; subst; clear H; tac) |]);
  try contradiction.

Ltac use_writer :=
  match goal with
  | H : lib_write _ _ _ _ _ = _ |- _ => rewrite H
  | H : lib_export _ _ _ _ _ = _ |- _ => rewrite H
  end.

Section MorePipelineFacts.
Context {sample : Type}.
Variable lib : Libs sample.

Local Abbreviation World := (World sample).

(** The run from any world and the run from the quiet world, for a recording
    callback or none: the facts about what became visible carry over. *)
Lemma recorded_run (task : AudioTask) (record : bool) (w : World) :
  let cb := if record then Some recording_callback else None in
  exists b w' delta wq' dq,
    process_audio lib task cb w = (Ok b, w') /\
    log w' = log w ++ delta /\
    process_audio lib task cb (quiet w) = (Ok b, wq') /\
    log wq' = log w ++ dq /\
    fs w' = fs wq' /\
    progress_values delta = progress_values dq /\
    calls delta = calls dq /\
    (forall ev, is_stop_request ev = false -> (In ev delta <-> In ev (visible dq))).
Proof.
  intros cb.
  destruct (process_audio_transfer lib task cb w)
    as (b & w' & delta & wq' & dq & Hrun & Hlog & Hq & Hlogq & Hvis & Hfs & _).
  { intros v. apply sim_report_recording. }
  { intros v. apply grows_report_recording; [reflexivity | auto]. }
  exists b, w', delta, wq', dq.
  split; [exact Hrun |]. split; [exact Hlog |]. split; [exact Hq |].
  split; [exact Hlogq |]. split; [exact Hfs |]. split; [| split].
  - rewrite <- (progress_values_visible delta), Hvis. apply progress_values_visible.
  - rewrite <- (calls_visible delta), Hvis. apply calls_visible.
  - intros ev Hev. rewrite <- Hvis. symmetry. apply In_visible. exact Hev.
Qed.

(** The cases of a run from a quiet world, with the events it appended. *)
Ltac quiet_cases record Hq Hlogq dq :=
  destruct record; split_pipeline Hq; eval_pipeline Hq;
  injection Hq as <- <-; simpl in Hlogq; rewrite <- ?app_assoc in Hlogq;
  apply app_inv_head in Hlogq; subst dq.

(** X8: when the load or the noise reduction raises, no later stage runs:
    [process_audio] returns [False], the files are untouched, and the
    callback has seen 10, or 10 and 30, and nothing more. *)
Theorem early_failure_touches_no_file (task : AudioTask) (record : bool) (w : World) :
  let progress_callback := if record then Some recording_callback else None in
  exists b w' delta,
    process_audio lib task progress_callback w = (Ok b, w') /\
    log w' = log w ++ delta /\
    (forall path e,
        In (Called (librosa_load path) (Raised e)) delta ->
        b = false /\ fs w' = fs w /\
        calls delta = [librosa_load (input_path task)] /\
        progress_values delta = (if record then [10] else [])) /\
    (forall args e,
        In (Called (nr_reduce_noise args) (Raised e)) delta ->
        b = false /\ fs w' = fs w /\
        calls delta = [librosa_load (input_path task); nr_reduce_noise args] /\
        progress_values delta = (if record then [10; 30] else [])).
Proof.
  intros cb.
  destruct (recorded_run task record w)
    as (b & w' & delta & wq' & dq & Hrun & Hlog & Hq & Hlogq & Hfs & Hpv & Hcalls & Hin).
  exists b, w', delta. split; [exact Hrun |]. split; [exact Hlog |].
  clear Hrun Hlog. rewrite Hpv, Hcalls, Hfs. clear Hpv Hcalls Hfs.
  destruct w as [f l r p].
  quiet_cases record Hq Hlogq dq; simpl in Hin.
  all: split; intros ? ? H; apply Hin in H; try reflexivity.
  all: in_cases H ltac:(repeat split).
Qed.

(** X9: [process_audio] changes the files by at most one writer call, made
    on the output path: afterwards the files are as before, or as
    [sf.write] left them, or as the mp3 export left them. *)
Theorem files_change_only_through_the_writer
    (task : AudioTask) (record : bool) (w : World) :
  let progress_callback := if record then Some recording_callback else None in
  let w' := snd (process_audio lib task progress_callback w) in
  fs w' = fs w \/
  (exists y_clean sr,
     fs w' = snd (lib_write lib (output_path task) y_clean sr (fs w))) \/
  (exists audio_segment,
     fs w' = snd (lib_export lib audio_segment (output_path task) "mp3" (fs w))).
Proof.
  intros cb w'.
  destruct (recorded_run task record w)
    as (b & w1 & delta & wq' & dq & Hrun & _ & Hq & Hlogq & Hfs & _).
  unfold w', cb. rewrite Hrun. cbn [snd]. rewrite Hfs. clear Hrun Hfs w' cb.
  destruct w as [f l r p].
  quiet_cases record Hq Hlogq dq; cbn [fs];
    first [ left; reflexivity
          | right; left; eexists _, _; use_writer; reflexivity
          | right; right; eexists; use_writer; reflexivity ].
Qed.

(** X10: on every run, successful or not, the values handed to the callback
    are an initial part of the full sequence of checkpoints, and 100 is among
    them exactly when the run returns [True]. *)
Theorem progress_values_are_a_prefix (task : AudioTask) (w : World) :
  exists b w' delta,
    process_audio lib task (Some recording_callback) w = (Ok b, w') /\
    log w' = log w ++ delta /\
    (exists rest,
       (if enable_speech_enhancement task
        then [10; 30; 60; 80; 100] else [10; 30; 80; 100])
       = progress_values delta ++ rest) /\
    (b = true <-> In 100 (progress_values delta)).
Proof.
  destruct (recorded_run task true w)
    as (b & w' & delta & wq' & dq & Hrun & Hlog & Hq & Hlogq & _ & Hpv & _).
  exists b, w', delta. split; [exact Hrun |]. split; [exact Hlog |].
  rewrite Hpv. clear Hrun Hlog Hpv.
  destruct w as [f l r p]. cbv zeta in Hq. eval_pipeline Hq.
  destruct (enable_speech_enhancement task) eqn:Henable;
  split_pipeline Hq; eval_pipeline Hq;
    injection Hq as <- <-; simpl in Hlogq; rewrite <- ?app_assoc in Hlogq;
    apply app_inv_head in Hlogq; subst dq; simpl.
  all: split; [eexists; reflexivity |].
  all: split; [intros Hb; first [discriminate Hb | tauto] | intros Hin].
  all: first [reflexivity | exfalso; repeat (destruct Hin as [Hin | Hin]; [discriminate Hin |]); exact Hin].
Qed.


End MorePipelineFacts.

(** ** More on [ProcessingThread.run] *)

Section ThreadFacts.
Context {sample : Type}.
Variable lib : Libs sample.

Local Abbreviation World := (World sample).

(** The progress signals of a run of the pipeline from a quiet world. *)
Lemma quiet_thread_signals (task : AudioTask) f l r b (wq : World) :
  process_audio lib task
    (Some (fun p : Z => emit (Emitted (progress_updated (name task) p))))
    (mkWorld f l r None) = (Ok b, wq) ->
  exists dq values,
    log wq = l ++ dq /\
    signals dq = List.map (progress_updated (name task)) values /\
    (exists rest,
       (if enable_speech_enhancement task
        then [10; 30; 60; 80; 100] else [10; 30; 80; 100]) = values ++ rest) /\
    (b = true <-> In 100 values).
Proof.
  intros Hq. eval_pipeline Hq.
  destruct (enable_speech_enhancement task) eqn:Henable;
    split_pipeline Hq; eval_pipeline Hq; injection Hq as <- <-;
    cbn [log]; rewrite <- ?app_assoc; eexists.
  all: first
    [ exists [10; 30; 60; 80; 100]; split; [reflexivity |]; split; [reflexivity |];
      split; [exists []; reflexivity | simpl; split; [tauto | reflexivity]]
    | exists [10; 30; 80; 100]; split; [reflexivity |]; split; [reflexivity |];
      split; [exists []; reflexivity | simpl; split; [tauto | reflexivity]]
    | exists [10; 30; 60; 80]; split; [reflexivity |]; split; [reflexivity |];
      split; [eexists; reflexivity | simpl; split; [discriminate | intuition discriminate]]
    | exists [10; 30; 80]; split; [reflexivity |]; split; [reflexivity |];
      split; [eexists; reflexivity | simpl; split; [discriminate | intuition discriminate]]
    | exists [10; 30]; split; [reflexivity |]; split; [reflexivity |];
      split; [eexists; reflexivity | simpl; split; [discriminate | intuition discriminate]]
    | exists [10]; split; [reflexivity |]; split; [reflexivity |];
      split; [eexists; reflexivity | simpl; split; [discriminate | intuition discriminate]] ].
Qed.

(** The terminal signal of [run], once [process_audio] has returned. *)
Lemma run_terminal_signal (task : AudioTask) (success : bool) (w : World) :
  exists w' tail_events s m,
    try_except
      (bind poll_is_running (fun is_running =>
         if negb is_running then
           emit (Emitted (task_completed (name task) false "Task cancelled"))
         else if success then
           emit (Emitted (task_completed (name task) true
                            "Processing completed successfully"))
         else
           emit (Emitted (task_completed (name task) false "Processing failed"))))
      (fun e =>
         emit (Emitted (task_completed (name task) false ("Error: " +:+ exn_str e))))
      w = (Ok tt, w') /\
    log w' = log w ++ tail_events /\
    signals tail_events = [task_completed (name task) s m] /\
    (((s, m) = (false, "Task cancelled") /\
      (thread_is_running w = false \/ existsb is_stop_request tail_events = true)) \/
     (thread_is_running w = true /\
      (s, m) = (success, if success then "Processing completed successfully"
                         else "Processing failed"))).
Proof.
  destruct w as [f l r p].
  destruct p as [[|[|k]]|], r, success;
    cbv beta iota zeta delta
      [poll_is_running emit add_event bind try_except yield stop negb
       fs log thread_is_running pending_stop];
    rewrite <- ?app_assoc; cbn [app];
    eexists _, _, _, _; (split; [reflexivity |]); (split; [reflexivity |]);
    (split; [reflexivity |]); cbn; auto.
Qed.

(** X12: [run] raises nothing, leaves [is_running] false, and emits the
    progress signals of the checkpoints reached, in order, followed by
    exactly one [task_completed] signal, which is the last signal of the run.
    That signal is one of success, "Processing failed" and "Task cancelled"
    (never an "Error: ..." message); success is only reported after the
    progress 100, "Task cancelled" only when [stop] was run during the run,
    and without a [stop] success is reported exactly when 100 was. *)
Theorem run_reports_once (task : AudioTask) (w : World) :
  exists w' delta values success message,
    run lib task w = (Ok tt, w') /\
    thread_is_running w' = false /\
    log w' = log w ++ delta /\
    signals delta =
      List.map (progress_updated (name task)) values
      ++ [task_completed (name task) success message] /\
    (exists rest,
       (if enable_speech_enhancement task
        then [10; 30; 60; 80; 100] else [10; 30; 80; 100]) = values ++ rest) /\
    In (success, message)
       [ (true, "Processing completed successfully");
         (false, "Processing failed");
         (false, "Task cancelled") ] /\
    (success = true -> In 100 values) /\
    (message = "Task cancelled" -> existsb is_stop_request delta = true) /\
    (existsb is_stop_request delta = false -> (success = true <-> In 100 values)).
Proof.
  set (cb := Some (fun p : Z => emit (Emitted (progress_updated (name task) p)))
             : option (Z -> M sample unit)).
  destruct w as [f l r p].
  destruct (process_audio_transfer lib task cb (mkWorld f l true p))
    as (b & w2 & delta & wq2 & dq & Hrun & Hlog & Hq & Hlogq & Hvis & _ & _ & Hflag).
  { intros v. apply sim_emit. reflexivity. }
  { intros v. apply grows_emit; reflexivity. }
  unfold quiet in Hq. cbn [fs log thread_is_running] in Hq, Hlogq, Hlog, Hflag.
  destruct (quiet_thread_signals task f l true b wq2 Hq)
    as (dq' & values & Hlogq' & Hsig & Hprefix & Hb).
  rewrite Hlogq in Hlogq'. apply app_inv_head in Hlogq'. subst dq'.
  assert (Hsd : signals delta = List.map (progress_updated (name task)) values).
  { rewrite <- (signals_visible delta), Hvis, signals_visible. exact Hsig. }
  destruct (run_terminal_signal task b w2)
    as (w3 & tail_events & s & m & Hfin & Hlog3 & Hsig3 & Hcases).
  exists (mkWorld (fs w3) (log w3) false (pending_stop w3)),
         (delta ++ tail_events), values, s, m.
  split.
  { unfold run. rewrite bind_set_is_running. unfold try_finally.
    erewrite try_except_bind_ok by exact Hrun. cbv beta.
    rewrite Hfin. reflexivity. }
  split; [reflexivity |]. split.
  { cbn [log]. rewrite Hlog3, Hlog, <- app_assoc. reflexivity. }
  split; [rewrite signals_app, Hsd, Hsig3; reflexivity |].
  split; [exact Hprefix |].
  rewrite existsb_app. rewrite Hflag in Hcases. cbn [andb] in Hcases.
  destruct Hcases as [[Hsm Hstop] | [Hrunning Hsm]].
  - injection Hsm as -> ->. split; [simpl; tauto |].
    split; [discriminate |]. split.
    + intros _. apply orb_true_iff.
      destruct Hstop as [Hstop | Hstop]; [left | right; exact Hstop].
      apply negb_false_iff. exact Hstop.
    + intros Hnone. apply orb_false_iff in Hnone. destruct Hnone as [Hd Ht].
      rewrite Hd in Hstop. destruct Hstop as [Hstop | Hstop]; [discriminate Hstop |].
      rewrite Ht in Hstop. discriminate Hstop.
  - injection Hsm as -> ->. destruct b.
    + split; [simpl; tauto |]. split; [intros _; apply Hb; reflexivity |].
      split; [discriminate |]. intros _. exact Hb.
    + split; [simpl; tauto |]. split; [discriminate |].
      split; [discriminate |]. intros _. exact Hb.
Qed.

End ThreadFacts.

(** ** [process_tasks] *)

Section BatchLoopFacts.
Context {sample : Type}.
Variable lib : Libs sample.

Local Abbreviation World := (World sample).

Lemma process_tasks_loop_no_request (tasks : list AudioTask) (w : World) :
  process_tasks_loop lib tasks (mkBatch w true None) =
    (Ok tt, mkBatch (process_each lib tasks w) true None).
Proof.
  revert w. induction tasks as [|task rest IH]; intros w; [reflexivity |].
  cbn [process_tasks_loop batch_yield pending_stop_processing is_processing
       batch_world negb process_each].
  pose proof (process_task_returns lib task w) as Hok.
  destruct (_process_task lib task w) as [res w']. cbn [fst snd] in *. subst res.
  apply IH.
Qed.

Lemma process_tasks_loop_request (tasks : list AudioTask) (w : World) (k : nat) :
  process_tasks_loop lib tasks (mkBatch w true (Some k)) =
    (Ok tt,
     if (k <? List.length tasks)%nat
     then mkBatch (process_each lib (List.firstn k tasks) w) false None
     else mkBatch (process_each lib tasks w) true
                  (Some (k - List.length tasks)%nat)).
Proof.
  revert w k. induction tasks as [|task rest IH]; intros w k.
  - cbn. rewrite Nat.sub_0_r. reflexivity.
  - destruct k as [|k].
    + reflexivity.
    + cbn [process_tasks_loop batch_yield pending_stop_processing is_processing
           batch_world negb process_each List.firstn List.length].
      pose proof (process_task_returns lib task w) as Hok.
      destruct (_process_task lib task w) as [res w']. cbn [fst snd] in *. subst res.
      rewrite IH. reflexivity.
Qed.

(** X13: without a [stop_processing] request, [process_tasks] raises nothing
    and processes every task of the list, in order, whatever happened to the
    tasks before it: a task that fails does not keep the later ones from
    being processed.  The flag is set at the start, whatever it was, and is
    still set at the end. *)
Theorem process_tasks_processes_every_task (tasks : list AudioTask) (self : Batch) :
  pending_stop_processing self = None ->
  process_tasks lib tasks self =
    (Ok tt, mkBatch (process_each lib tasks (batch_world self)) true None).
Proof.
  intros Hnone. unfold process_tasks. rewrite Hnone.
  apply process_tasks_loop_no_request.
Qed.

(** X14: a [stop_processing] that is run before the loop tests the flag for
    the task number [k] (from 0) ends the batch there: the first [k] tasks
    are processed, the others are not started, and the flag is left
    cleared.  A request that has not arrived when the list is exhausted
    changes nothing. *)
Theorem process_tasks_stops_at_the_next_task
    (tasks : list AudioTask) (self : Batch) (k : nat) :
  pending_stop_processing self = Some k ->
  process_tasks lib tasks self =
    (Ok tt,
     if (k <? List.length tasks)%nat
     then mkBatch (process_each lib (List.firstn k tasks) (batch_world self)) false None
     else mkBatch (process_each lib tasks (batch_world self)) true
                  (Some (k - List.length tasks)%nat)).
Proof.
  intros Hsome. unfold process_tasks. rewrite Hsome.
  apply process_tasks_loop_request.
Qed.

End BatchLoopFacts.

Lemma process_tasks_processes_every_task_witness :
  let tasks := [default_task "missing.wav"; default_task "lecture1.wav"] in
  let self := mkBatch empty_world false None in
  pending_stop_processing self = None /\
  process_tasks working_libs tasks self =
    (Ok tt, mkBatch (process_each working_libs tasks empty_world) true None).
Proof.
  intros tasks self. split; [reflexivity |].
  apply (process_tasks_processes_every_task working_libs tasks self). reflexivity.
Defined.

Lemma process_tasks_stops_at_the_next_task_witness :
  let tasks := [default_task "a.wav"; default_task "b.wav"; default_task "c.wav"] in
  let self := mkBatch empty_world false (Some 1%nat) in
  process_tasks working_libs tasks self =
    (Ok tt, mkBatch (process_each working_libs [default_task "a.wav"] empty_world)
              false None).
Proof.
  intros tasks self.
  apply (process_tasks_stops_at_the_next_task working_libs tasks self 1%nat).
  reflexivity.
Defined.

(** ** The registry *)

Section RegistryFacts.
Implicit Types (self : Gui) (task_name : string).

Lemma registered_when_running self task_name thread :
  registry_invariant (window self) ->
  processing_threads (window self) !! task_name = Some thread ->
  exists task task_item, tasks (window self) !! task_name = Some (task, task_item).
Proof.
  intros Hinv Hthread.
  destruct (tasks (window self) !! task_name) as [[task task_item] |] eqn:Htask.
  - eauto.
  - apply Hinv in Htask. unfold is_idle in Htask. congruence.
Qed.

Lemma add_task_keeps_invariant (window0 : MainWindow) exec_ config :
  registry_invariant window0 -> registry_invariant (add_task exec_ config window0).
Proof.
  intros Hinv. unfold add_task. destruct exec_; [exact Hinv |].
  destruct (negb _); [| exact Hinv].
  intros other Hother. cbn [tasks] in Hother. unfold is_idle. cbn [processing_threads].
  apply Hinv. rewrite lookup_insert in Hother.
  destruct (decide _); [discriminate | exact Hother].
Qed.

Lemma start_task_spec self task_name :
  fst (start_task task_name self) = Ok tt /\
  tasks (window (snd (start_task task_name self))) = tasks (window self) /\
  (registry_invariant (window self) ->
   registry_invariant (window (snd (start_task task_name self)))) /\
  (forall other,
      processing_threads (window (snd (start_task task_name self))) !! other =
        if decide (other = task_name) then
          match processing_threads (window self) !! task_name with
          | Some thread => Some thread
          | None => fst <$> tasks (window self) !! task_name
          end
        else processing_threads (window self) !! other).
Proof.
  unfold start_task.
  destruct (tasks (window self) !! task_name) as [[task task_item] |] eqn:Htask;
    destruct (processing_threads (window self) !! task_name) as [thread |] eqn:Hthread;
    cbn [fst snd window tasks processing_threads fmap option_fmap option_map].
  all: split; [reflexivity |]. all: split; [reflexivity |]. all: split.
  all: try (intros Hinv; exact Hinv).
  all: try (intros other; destruct (decide (other = task_name)) as [-> | Hne];
            [assumption | reflexivity]).
  - intros Hinv other Hother. cbn [tasks] in Hother.
    unfold is_idle. cbn [processing_threads].
    rewrite lookup_insert_ne by congruence. apply Hinv. exact Hother.
  - intros other. rewrite lookup_insert.
    destruct (decide (task_name = other)) as [<- | Hne].
    + rewrite decide_True by reflexivity. reflexivity.
    + rewrite decide_False by congruence. reflexivity.
Qed.

Lemma stop_task_spec self task_name :
  registry_invariant (window self) ->
  fst (stop_task task_name self) = Ok tt /\
  tasks (window (snd (stop_task task_name self))) = tasks (window self) /\
  processing_threads (window (snd (stop_task task_name self))) =
    delete task_name (processing_threads (window self)) /\
  registry_invariant (window (snd (stop_task task_name self))).
Proof.
  intros Hinv. unfold stop_task.
  destruct (processing_threads (window self) !! task_name) as [thread |] eqn:Hthread.
  - destruct (registered_when_running self task_name thread Hinv Hthread)
      as (task & task_item & Htask).
    rewrite Htask. cbn [fst snd window tasks processing_threads].
    repeat split. intros other Hother. unfold is_idle. cbn [processing_threads].
    rewrite lookup_delete. destruct (decide _); [reflexivity |].
    apply Hinv. exact Hother.
  - cbn [fst snd]. repeat split; [| exact Hinv].
    symmetry. apply delete_id. exact Hthread.
Qed.

Lemma remove_task_spec self task_name :
  registry_invariant (window self) ->
  fst (remove_task task_name self) = Ok tt /\
  tasks (window (snd (remove_task task_name self))) =
    delete task_name (tasks (window self)) /\
  processing_threads (window (snd (remove_task task_name self))) =
    delete task_name (processing_threads (window self)) /\
  registry_invariant (window (snd (remove_task task_name self))).
Proof.
  intros Hinv. unfold remove_task.
  destruct (tasks (window self) !! task_name) as [[task task_item] |] eqn:Htask.
  - destruct (stop_task_spec self task_name Hinv) as (Hok & Htasks & Hthreads & Hinv1).
    destruct (stop_task task_name self) as [res self1]. cbn [fst snd] in *.
    subst res. rewrite Htasks, Htask. cbn [fst snd window tasks processing_threads].
    rewrite ?Htasks, Hthreads. repeat split.
    intros other Hother. cbn [tasks] in Hother.
    unfold is_idle. cbn [processing_threads].
    rewrite lookup_delete in Hother. rewrite lookup_delete.
    destruct (decide (task_name = other)); [reflexivity |].
    apply Hinv. exact Hother.
  - cbn [fst snd]. split; [reflexivity |]. split; [| split; [| exact Hinv]].
    + symmetry. apply delete_id. exact Htask.
    + symmetry. apply delete_id. apply Hinv. exact Htask.
Qed.

Lemma on_task_completed_spec self task_name success message :
  registry_invariant (window self) ->
  fst (on_task_completed task_name success message self) = Ok tt /\
  tasks (window (snd (on_task_completed task_name success message self))) =
    tasks (window self) /\
  processing_threads (window (snd (on_task_completed task_name success message self))) =
    delete task_name (processing_threads (window self)) /\
  registry_invariant (window (snd (on_task_completed task_name success message self))).
Proof.
  intros Hinv. unfold on_task_completed.
  destruct (processing_threads (window self) !! task_name) as [thread |] eqn:Hthread.
  - destruct (stop_task_spec self task_name Hinv) as (Hok & Htasks & Hthreads & Hinv1).
    destruct (stop_task task_name self) as [res self1]. cbn [fst snd] in *.
    subst res.
    destruct (tasks (window self1) !! task_name) as [[task task_item] |];
      destruct success; cbn [negb fst snd window]; auto.
  - cbn [fst snd]. repeat split; [| exact Hinv].
    symmetry. apply delete_id. exact Hthread.
Qed.

End RegistryFacts.

(** X15: threads are only ever registered for registered tasks, and every
    operation of the window keeps it so.  Under that invariant [stop_task],
    [remove_task] and [on_task_completed] find the item they look up: none of
    the operations raises. *)
Theorem registry_invariant_is_kept (self : Gui) (task_name : string)
    (exec_ : DialogCode) (config : Configuration)
    (progress : Z) (success : bool) (message : string) :
  registry_invariant (window self) ->
  registry_invariant (add_task exec_ config (window self)) /\
  (fst (start_task task_name self) = Ok tt /\
   registry_invariant (window (snd (start_task task_name self)))) /\
  (fst (stop_task task_name self) = Ok tt /\
   registry_invariant (window (snd (stop_task task_name self)))) /\
  (fst (remove_task task_name self) = Ok tt /\
   registry_invariant (window (snd (remove_task task_name self)))) /\
  (fst (update_task_progress task_name progress self) = Ok tt /\
   registry_invariant (window (snd (update_task_progress task_name progress self)))) /\
  (fst (on_task_completed task_name success message self) = Ok tt /\
   registry_invariant
     (window (snd (on_task_completed task_name success message self)))).
Proof.
  intros Hinv.
  split; [apply add_task_keeps_invariant; exact Hinv |].
  split; [destruct (start_task_spec self task_name) as (H1 & _ & H2 & _); auto |].
  split; [destruct (stop_task_spec self task_name Hinv) as (H1 & _ & _ & H2); auto |].
  split; [destruct (remove_task_spec self task_name Hinv) as (H1 & _ & _ & H2); auto |].
  split.
  - unfold update_task_progress.
    destruct (tasks (window self) !! task_name) as [[task task_item] |]; auto.
  - destruct (on_task_completed_spec self task_name success message Hinv)
      as (H1 & _ & _ & H2); auto.
Qed.

Lemma registry_invariant_is_kept_witness :
  let self := mkGui (add_task Accepted (default_configuration "/a/lecture1.wav")
                       (mkMainWindow ∅ ∅ [])) [] in
  registry_invariant (window self) /\
  fst (remove_task "lecture1" (snd (start_task "lecture1" self))) = Ok tt.
Proof.
  intros self.
  assert (Hinv : registry_invariant (window self)) by (intros other _; reflexivity).
  split; [exact Hinv |].
  destruct (registry_invariant_is_kept self "lecture1" Accepted
              (default_configuration "/a/lecture1.wav") 0 true "" Hinv)
    as (_ & (_ & Hinv1) & _).
  destruct (registry_invariant_is_kept (snd (start_task "lecture1" self)) "lecture1"
              Accepted (default_configuration "/a/lecture1.wav") 0 true "" Hinv1)
    as (_ & _ & _ & (Hok & _) & _).
  exact Hok.
Defined.


(** X17: removing a task forgets it and nothing else.  Afterwards the name
    is neither registered nor running and every other entry is as before; a
    running task is stopped and waited for before its item is deleted, an
    unknown name changes nothing. *)
Theorem remove_task_forgets_the_task (self : Gui) (task_name : string) :
  registry_invariant (window self) ->
  let self1 := snd (remove_task task_name self) in
  fst (remove_task task_name self) = Ok tt /\
  tasks (window self1) = delete task_name (tasks (window self)) /\
  processing_threads (window self1) =
    delete task_name (processing_threads (window self)) /\
  task_layout (window self1) = task_layout (window self) /\
  ui self1 =
    ui self ++
    match tasks (window self) !! task_name with
    | None => []
    | Some (_, task_item) =>
        match processing_threads (window self) !! task_name with
        | Some thread =>
            [thread_stop thread; thread_wait thread;
             item_set_running task_item false; item_deleteLater task_item]
        | None => [item_deleteLater task_item]
        end
    end.
Proof.
  intros Hinv self1.
  destruct (remove_task_spec self task_name Hinv) as (Hok & Htasks & Hthreads & _).
  split; [exact Hok |]. split; [exact Htasks |]. split; [exact Hthreads |].
  subst self1. unfold remove_task, stop_task.
  destruct (tasks (window self) !! task_name) as [[task task_item] |] eqn:Htask.
  - destruct (processing_threads (window self) !! task_name) as [thread |] eqn:Hthread;
      cbn [window tasks snd]; rewrite ?Htask;
      cbn [snd window task_layout ui]; (split; [reflexivity |]);
      rewrite <- ?app_assoc; reflexivity.
  - cbn [snd]. rewrite app_nil_r. auto.
Qed.

Lemma remove_task_forgets_the_task_witness :
  let self := snd (start_task "lecture1"
                     (mkGui (add_task Accepted (default_configuration "/a/lecture1.wav")
                               (mkMainWindow ∅ ∅ [])) [])) in
  registry_invariant (window self) /\
  tasks (window (snd (remove_task "lecture1" self))) !! "lecture1" = None /\
  ui (snd (remove_task "lecture1" self)) =
    [ thread_start (default_task "/a/lecture1.wav");
      item_set_running (TaskItem_init "lecture1") true;
      thread_stop (default_task "/a/lecture1.wav");
      thread_wait (default_task "/a/lecture1.wav");
      item_set_running (TaskItem_init "lecture1") false;
      item_deleteLater (TaskItem_init "lecture1") ].
Proof.
  intros self.
  assert (Hinv : registry_invariant (window self)).
  { intros other Hother. unfold is_idle. unfold self in *.
    destruct (start_task_spec
                (mkGui (add_task Accepted (default_configuration "/a/lecture1.wav")
                          (mkMainWindow ∅ ∅ [])) []) "lecture1")
      as (_ & _ & Hkeep & _).
    apply Hkeep; [intros n _; reflexivity | exact Hother]. }
  split; [exact Hinv |].
  destruct (remove_task_forgets_the_task self "lecture1" Hinv)
    as (_ & Htasks & _ & _ & Hui).
  split.
  - rewrite Htasks. apply lookup_delete_eq.
  - rewrite Hui. vm_compute. reflexivity.
Defined.

(** X18: a name that was removed can be added again.  After [remove_task]
    of the name an accepted dialog for a file of that name registers the new
    task, idle, and leaves the other tasks and threads as they were. *)
Theorem remove_then_add_registers_afresh (self : Gui) (config : Configuration) :
  registry_invariant (window self) ->
  cfg_input_path config <> "" ->
  let task :=
    AudioTask_init (cfg_input_path config) ""
      (cfg_noise_reduction_level config) (cfg_enable_speech_enhancement config)
      (cfg_speech_enhancement_level config) (cfg_voice_clarity_boost config)
      (cfg_background_noise_level config) in
  let window2 :=
    add_task Accepted config (window (snd (remove_task (name task) self))) in
  fst (remove_task (name task) self) = Ok tt /\
  tasks window2 !! name task = Some (task, TaskItem_init (name task)) /\
  is_idle window2 (name task) /\
  (forall other, other <> name task ->
     tasks window2 !! other = tasks (window self) !! other /\
     processing_threads window2 !! other = processing_threads (window self) !! other).
Proof.
  intros Hinv Hpath task window2.
  destruct (remove_task_spec self (name task) Hinv) as (Hok & Htasks & Hthreads & _).
  assert (Hne : String.eqb (cfg_input_path config) "" = false)
    by (apply String.eqb_neq; exact Hpath).
  subst window2. unfold add_task. rewrite Hne. cbn [negb]. fold task.
  unfold is_idle. cbn [tasks processing_threads].
  rewrite Htasks, Hthreads.
  split; [exact Hok |]. split; [apply lookup_insert_eq |].
  split; [apply lookup_delete_eq |].
  intros other Hother.
  rewrite lookup_insert_ne by congruence.
  rewrite !lookup_delete_ne by congruence. auto.
Qed.

Lemma remove_then_add_registers_afresh_witness :
  let self := mkGui (add_task Accepted (default_configuration "/a/lecture1.wav")
                       (mkMainWindow ∅ ∅ [])) [] in
  let window2 :=
    add_task Accepted (default_configuration "/b/lecture1.mp3")
      (window (snd (remove_task "lecture1" self))) in
  fst <$> tasks window2 !! "lecture1" = Some (default_task "/b/lecture1.mp3") /\
  is_idle window2 "lecture1".
Proof.
  intros self window2.
  assert (Hinv : registry_invariant (window self)) by (intros other _; reflexivity).
  assert (Hpath : cfg_input_path (default_configuration "/b/lecture1.mp3") <> "")
    by discriminate.
  destruct (remove_then_add_registers_afresh self
              (default_configuration "/b/lecture1.mp3") Hinv Hpath)
    as (_ & Hlookup & Hidle & _).
  split; [| exact Hidle].
  exact (f_equal (fmap fst) Hlookup).
Defined.

(** X19: the completion signal of a task counts only while its thread is
    registered.  After [stop_task] the signal is ignored, whatever it
    reports: no status is set on the item and no warning is shown, so the
    "Task cancelled" of a stopped run never reaches the user.  While the
    thread is registered the thread is unregistered, the item leaves the
    running state and gets the status, and a warning follows exactly when
    the task failed. *)
Theorem completion_counts_only_while_running
    (self : Gui) (task_name : string) (success : bool) (message : string) :
  (let self1 := snd (stop_task task_name self) in
   on_task_completed task_name success message self1 = (Ok tt, self1)) /\
  (forall task task_item thread,
      tasks (window self) !! task_name = Some (task, task_item) ->
      processing_threads (window self) !! task_name = Some thread ->
      let self2 := snd (on_task_completed task_name success message self) in
      processing_threads (window self2) !! task_name = None /\
      ui self2 =
        ui self ++
        [thread_stop thread; thread_wait thread;
         item_set_running task_item false;
         item_set_status task_item success message] ++
        (if success then []
         else [QMessageBox_warning "Task Failed"
                 ("Task '" +:+ task_name +:+ "' failed: " +:+ message)])).
Proof.
  split.
  - intros self1.
    assert (Hgone : processing_threads (window self1) !! task_name = None).
    { subst self1. unfold stop_task.
      destruct (processing_threads (window self) !! task_name) as [thread |] eqn:Hthread.
      - destruct (tasks (window self) !! task_name) as [[task task_item] |];
          cbn [snd window processing_threads]; apply lookup_delete_eq.
      - exact Hthread. }
    unfold on_task_completed. rewrite Hgone. reflexivity.
  - intros task task_item thread Htask Hthread self2. subst self2.
    unfold on_task_completed, stop_task. rewrite Hthread, Htask.
    cbn [window tasks]. rewrite Htask.
    destruct success; cbn [negb snd window processing_threads ui];
      (split; [apply lookup_delete_eq |]); rewrite <- ?app_assoc;
      cbn [app]; rewrite ?app_nil_r; reflexivity.
Qed.

(** ** Start all, stop all *)

Section BulkFacts.
Implicit Types (self : Gui) (names : list string).

Lemma start_if_idle_is_start_task task_name self :
  start_if_idle task_name self = start_task task_name self.
Proof.
  unfold start_if_idle, start_task.
  destruct (processing_threads (window self) !! task_name);
    destruct (tasks (window self) !! task_name) as [[? ?] |]; reflexivity.
Qed.

Lemma for_each_start names self :
  fst (for_each start_if_idle names self) = Ok tt /\
  tasks (window (snd (for_each start_if_idle names self))) = tasks (window self) /\
  (forall other,
      processing_threads (window (snd (for_each start_if_idle names self))) !! other =
        if decide (other ∈ names) then
          match processing_threads (window self) !! other with
          | Some thread => Some thread
          | None => fst <$> tasks (window self) !! other
          end
        else processing_threads (window self) !! other).
Proof.
  revert self. induction names as [|task_name rest IH]; intros self.
  - cbn [for_each fst snd]. split; [reflexivity |]. split; [reflexivity |].
    intros other. rewrite decide_False by (apply not_elem_of_nil). reflexivity.
  - cbn [for_each]. rewrite start_if_idle_is_start_task.
    destruct (start_task_spec self task_name) as (Hok & Htasks & _ & Hthreads).
    destruct (start_task task_name self) as [res self1]. cbn [fst snd] in *.
    subst res. destruct (IH self1) as (Hok1 & Htasks1 & Hthreads1).
    split; [exact Hok1 |]. split; [congruence |].
    intros other. rewrite Hthreads1, Htasks, !Hthreads.
    destruct (decide (other = task_name)) as [-> | Hne].
    + rewrite (decide_True (P := task_name ∈ task_name :: rest))
        by (apply elem_of_cons; left; reflexivity).
      destruct (decide (task_name ∈ rest)); [| reflexivity].
      destruct (processing_threads (window self) !! task_name); [reflexivity |].
      destruct (tasks (window self) !! task_name); reflexivity.
    + destruct (decide (other ∈ rest)) as [Hin | Hnin].
      * rewrite (decide_True (P := other ∈ task_name :: rest))
          by (apply elem_of_cons; right; exact Hin).
        reflexivity.
      * rewrite (decide_False (P := other ∈ task_name :: rest)); [reflexivity |].
        intros Hin. apply elem_of_cons in Hin. destruct Hin; congruence.
Qed.

Lemma for_each_stop names self :
  registry_invariant (window self) ->
  fst (for_each stop_task names self) = Ok tt /\
  tasks (window (snd (for_each stop_task names self))) = tasks (window self) /\
  registry_invariant (window (snd (for_each stop_task names self))) /\
  (forall other,
      processing_threads (window (snd (for_each stop_task names self))) !! other =
        if decide (other ∈ names) then None
        else processing_threads (window self) !! other).
Proof.
  revert self. induction names as [|task_name rest IH]; intros self Hinv.
  - cbn [for_each fst snd]. split; [reflexivity |]. split; [reflexivity |].
    split; [exact Hinv |].
    intros other. rewrite decide_False by (apply not_elem_of_nil). reflexivity.
  - cbn [for_each].
    destruct (stop_task_spec self task_name Hinv) as (Hok & Htasks & Hthreads & Hinv1).
    destruct (stop_task task_name self) as [res self1]. cbn [fst snd] in *.
    subst res. destruct (IH self1 Hinv1) as (Hok1 & Htasks1 & Hinv2 & Hthreads1).
    split; [exact Hok1 |]. split; [congruence |]. split; [exact Hinv2 |].
    intros other. rewrite Hthreads1, Hthreads, lookup_delete.
    destruct (decide (other ∈ rest)) as [Hin | Hnin].
    + rewrite decide_True by (apply elem_of_cons; right; exact Hin). reflexivity.
    + destruct (decide (task_name = other)) as [<- | Hne].
      * rewrite decide_True by (apply elem_of_cons; left; reflexivity). reflexivity.
      * rewrite decide_False; [reflexivity |].
        intros Hin. apply elem_of_cons in Hin. destruct Hin; congruence.
Qed.

End BulkFacts.

(** X20: "Start All" leaves every registered task running.  When the loop
    visits the registered names, each once and in whatever order, nothing is
    raised, the tasks stay as they are, a task that was running keeps its
    thread and every idle task gets one.  On an empty registry the only
    effect is the warning. *)
Theorem start_all_tasks_starts_every_idle_task (names : list string) (self : Gui) :
  lists_keys names (tasks (window self)) ->
  let self1 := snd (start_all_tasks names self) in
  fst (start_all_tasks names self) = Ok tt /\
  tasks (window self1) = tasks (window self) /\
  (forall task_name,
      processing_threads (window self1) !! task_name =
        match processing_threads (window self) !! task_name with
        | Some thread => Some thread
        | None => fst <$> tasks (window self) !! task_name
        end) /\
  (tasks (window self) = ∅ ->
   self1 = mkGui (window self)
             (ui self ++ [QMessageBox_warning "Warning" "No tasks to process!"])).
Proof.
  intros [_ Hkeys] self1. subst self1. unfold start_all_tasks.
  destruct (decide (tasks (window self) = ∅)) as [Hempty | Hne].
  - cbn [fst snd window]. split; [reflexivity |]. split; [reflexivity |].
    split; [| reflexivity].
    intros task_name. rewrite Hempty, lookup_empty.
    destruct (processing_threads (window self) !! task_name); reflexivity.
  - destruct (for_each_start names self) as (Hok & Htasks & Hthreads).
    split; [exact Hok |]. split; [exact Htasks |]. split; [| contradiction].
    intros task_name. rewrite Hthreads.
    destruct (decide (task_name ∈ names)) as [Hin | Hnin]; [reflexivity |].
    destruct (processing_threads (window self) !! task_name); [reflexivity |].
    destruct (tasks (window self) !! task_name) eqn:Htask; [| reflexivity].
    exfalso. apply Hnin, Hkeys. eauto.
Qed.

Lemma start_all_tasks_starts_every_idle_task_witness :
  let window0 :=
    add_task Accepted (default_configuration "/a/lecture2.mp3")
      (add_task Accepted (default_configuration "/a/lecture1.wav")
         (mkMainWindow ∅ ∅ [])) in
  let self1 := snd (start_all_tasks ["lecture1"; "lecture2"] (mkGui window0 [])) in
  processing_threads (window self1) !! "lecture1" = Some (default_task "/a/lecture1.wav") /\
  processing_threads (window self1) !! "lecture2" = Some (default_task "/a/lecture2.mp3").
Proof.
  intros window0 self1.
  assert (Hkeys : lists_keys ["lecture1"; "lecture2"] (tasks (window (mkGui window0 [])))).
  { split.
    - apply (bool_decide_unpack _). reflexivity.
    - intros task_name. cbn [window]. unfold window0, add_task. cbn.
      rewrite !elem_of_cons, elem_of_nil.
      change (Pathlib.stem (Pathlib.Path "/a/lecture2.mp3")) with "lecture2".
      change (Pathlib.stem (Pathlib.Path "/a/lecture1.wav")) with "lecture1".
      rewrite !lookup_insert_is_Some, lookup_empty. split.
      + intros [-> | [-> | []]]; [right; split; [discriminate | left; reflexivity]
                                 | left; reflexivity].
      + intros [<- | [_ [<- | [_ H]]]]; [tauto | tauto |].
        destruct H as [? H]. discriminate H. }
  destruct (start_all_tasks_starts_every_idle_task ["lecture1"; "lecture2"]
              (mkGui window0 []) Hkeys) as (_ & _ & Hthreads & _).
  split; rewrite Hthreads; vm_compute; reflexivity.
Defined.

(** X21: "Stop All" (and closing the window, which does the same) leaves no
    task running.  When the loop visits the names of the registered
    threads, each once, nothing is raised, no thread is left registered and
    the tasks stay registered. *)
Theorem stop_all_tasks_leaves_no_thread (names : list string) (self : Gui) :
  registry_invariant (window self) ->
  lists_keys names (processing_threads (window self)) ->
  let self1 := snd (stop_all_tasks names self) in
  fst (stop_all_tasks names self) = Ok tt /\
  tasks (window self1) = tasks (window self) /\
  processing_threads (window self1) = ∅ /\
  registry_invariant (window self1).
Proof.
  intros Hinv [_ Hkeys] self1. subst self1. unfold stop_all_tasks.
  destruct (for_each_stop names self Hinv) as (Hok & Htasks & Hinv1 & Hthreads).
  split; [exact Hok |]. split; [exact Htasks |]. split; [| exact Hinv1].
  apply map_eq. intros other. rewrite Hthreads, lookup_empty.
  destruct (decide (other ∈ names)) as [Hin | Hnin]; [reflexivity |].
  destruct (processing_threads (window self) !! other) eqn:Hthread; [| reflexivity].
  exfalso. apply Hnin, Hkeys. eauto.
Qed.

Lemma stop_all_tasks_leaves_no_thread_witness :
  let self := snd (start_task "lecture1"
                     (mkGui (add_task Accepted (default_configuration "/a/lecture1.wav")
                               (mkMainWindow ∅ ∅ [])) [])) in
  processing_threads (window (snd (stop_all_tasks ["lecture1"] self))) = ∅.
Proof.
  intros self.
  assert (Hinv : registry_invariant (window self)).
  { unfold self.
    destruct (start_task_spec
                (mkGui (add_task Accepted (default_configuration "/a/lecture1.wav")
                          (mkMainWindow ∅ ∅ [])) []) "lecture1")
      as (_ & _ & Hkeep & _).
    apply Hkeep. intros n _. reflexivity. }
  assert (Hkeys : lists_keys ["lecture1"] (processing_threads (window self))).
  { split.
    - apply (bool_decide_unpack _). reflexivity.
    - intros task_name. rewrite list_elem_of_singleton.
      change (processing_threads (window self))
        with (<["lecture1" := default_task "/a/lecture1.wav"]>
                (∅ : gmap string AudioTask)).
      rewrite lookup_insert_is_Some, lookup_empty. split.
      + intros ->. left. reflexivity.
      + intros [<- | [_ [? H]]]; [reflexivity | discriminate H]. }
  destruct (stop_all_tasks_leaves_no_thread ["lecture1"] self Hinv Hkeys)
    as (_ & _ & Hempty & _).
  exact Hempty.
Defined.

(** ** The noise clip, for every integer *)

(** X22: the slice of the noise clip never reaches outside the signal,
    whatever integer the sample rate is: the clip is an initial part of the
    signal, of [min sr len] samples for [0 <= sr] and of [max 0 (len + sr)]
    samples for a negative [sr]; for the empty signal it is empty. *)
Theorem noise_clip_is_an_initial_part {A : Type} (y : list A) (sr : Z) :
  (exists rest, y = slice_to y sr ++ rest) /\
  Z.of_nat (List.length (slice_to y sr)) =
    (if sr <? 0 then Z.max 0 (Z.of_nat (List.length y) + sr)
     else Z.min sr (Z.of_nat (List.length y))) /\
  (y = [] -> slice_to y sr = []).
Proof.
  unfold slice_to. split; [| split].
  - destruct (sr <? 0); eexists; symmetry; apply List.firstn_skipn.
  - destruct (Z.ltb_spec sr 0); rewrite List.length_firstn; lia.
  - intros ->. destruct (sr <? 0); apply List.firstn_nil.
Qed.

(** ** From the dialog to the registry *)

(** X23: a task added through a dialog whose settings were left alone is the
    task that [AudioTask(input_path)] builds with its defaults, registered
    under the stem of the chosen file.  When no file was chosen (the file
    chooser was dismissed), accepting the dialog adds nothing. *)
Theorem untouched_dialog_adds_the_default_task (file_path : string) (window0 : MainWindow) :
  let dialog := browse_file file_path TaskDialog_init in
  get_configuration dialog = Ok (default_configuration file_path) /\
  (file_path = "" ->
   dialog = TaskDialog_init /\
   add_task Accepted (default_configuration file_path) window0 = window0) /\
  (file_path <> "" ->
   tasks (add_task Accepted (default_configuration file_path) window0)
     !! Pathlib.stem (Pathlib.Path file_path)
   = Some (default_task file_path,
           TaskItem_init (Pathlib.stem (Pathlib.Path file_path)))).
Proof.
  intros dialog. subst dialog. unfold browse_file.
  destruct (String.eqb_spec file_path "") as [-> | Hne].
  - split; [reflexivity |]. split; [| intros H; contradiction H; reflexivity].
    intros _. split; reflexivity.
  - cbn [negb]. split; [reflexivity |]. split; [intros H; contradiction |].
    intros _. unfold add_task. cbn [cfg_input_path default_configuration].
    rewrite (proj2 (String.eqb_neq file_path "") Hne). cbn [negb tasks].
    apply lookup_insert_eq.
Qed.
